(** * portable_python/setup_portable_env.py: a model of the provisioning script

    The script is sequential I/O: it creates two directories, asks the
    [platform] module which archive to fetch, downloads and unpacks it,
    rewrites [python310._pth], fetches and runs [get-pip.py], installs the
    requirements and writes two batch files.  The model threads an explicit
    world (the file system, and a chronological record of every call that
    reaches outside the interpreter) through a state-and-exception monad;
    what the script obtains from outside (platform names, the network, the
    contents of archives, the locale's codec, child processes) is supplied
    by an environment record, so that the properties hold for every such
    environment.

    Text and data are modelled by [string].  A file holds what its last
    writer gave it: a download and an unpacked member are kept as the bytes
    served, a text written in text mode is kept as that text.  A text-mode
    read decodes what the file holds with the locale's codec, which may
    refuse it, and turns every line ending into a line feed.  Paths are
    lists of components, as [pathlib] keeps them. *)

From Stdlib Require Import NArith ZArith Ascii String List Bool Lia.
From stdpp Require Import base option gmap strings list.

Local Open Scope string_scope.
Local Open Scope list_scope.

(** ** Python string literals

    The escape processing CPython applies to the body of a non-raw,
    non-bytes string literal, as a one-pass scanner.  Source characters are
    ASCII; the value is a list of code points.  Unrecognised escapes keep
    their backslash.  [\N{...}] needs the Unicode name table and is reported
    as such. *)
Module PyLiteral.

Inductive value :=
| Str (code_points : list N)
| SyntaxError (offset : nat) (reason : string)
| NamedEscape (offset : nat).

Inductive mode :=
| Plain
| Escape
| HexDigits (letter : ascii) (need : nat) (acc : N)
| OctDigits (room : nat) (acc : N).

Definition hex_digit (c : ascii) : option N :=
  let n := N_of_ascii c in
  if (48 <=? n)%N && (n <=? 57)%N then Some (n - 48)%N
  else if (97 <=? n)%N && (n <=? 102)%N then Some (n - 87)%N
  else if (65 <=? n)%N && (n <=? 70)%N then Some (n - 55)%N
  else None.

Definition oct_digit (c : ascii) : option N :=
  let n := N_of_ascii c in
  if (48 <=? n)%N && (n <=? 55)%N then Some (n - 48)%N else None.

Definition truncated (letter : ascii) : string :=
  if Ascii.eqb letter "x" then "truncated \xXX escape"
  else if Ascii.eqb letter "u" then "truncated \uXXXX escape"
  else "truncated \UXXXXXXXX escape".

(** What a character does right after a backslash: a finished escape
    ([inl]) or a new scanner mode ([inr]). *)
Definition after_backslash (c : ascii) : list N + mode :=
  let n := N_of_ascii c in
  if (n =? 10)%N then inl []
  else if Ascii.eqb c "\" then inl [92%N]
  else if Ascii.eqb c "'" then inl [39%N]
  else if (n =? 34)%N then inl [34%N]
  else if Ascii.eqb c "a" then inl [7%N]
  else if Ascii.eqb c "b" then inl [8%N]
  else if Ascii.eqb c "f" then inl [12%N]
  else if Ascii.eqb c "n" then inl [10%N]
  else if Ascii.eqb c "r" then inl [13%N]
  else if Ascii.eqb c "t" then inl [9%N]
  else if Ascii.eqb c "v" then inl [11%N]
  else if Ascii.eqb c "x" then inr (HexDigits c 2 0%N)
  else if Ascii.eqb c "u" then inr (HexDigits c 4 0%N)
  else if Ascii.eqb c "U" then inr (HexDigits c 8 0%N)
  else match oct_digit c with
       | Some d => inr (OctDigits 2 d)
       | None => inl [92%N; n]
       end.

(** [start] is the offset of the backslash that opened the escape being
    read, [pos] the offset of the next character; [out] is the value so
    far, most recent code point first. *)
Fixpoint scan (m : mode) (start pos : nat) (out : list N) (s : list ascii)
  : value :=
  match s with
  | [] =>
      match m with
      | Plain => Str (rev out)
      | Escape => SyntaxError start "unterminated string literal"
      | HexDigits letter _ _ => SyntaxError start (truncated letter)
      | OctDigits _ acc => Str (rev (acc :: out))
      end
  | c :: rest =>
      match m with
      | Plain =>
          if Ascii.eqb c "\" then scan Escape pos (S pos) out rest
          else scan Plain start (S pos) (N_of_ascii c :: out) rest
      | Escape =>
          if Ascii.eqb c "N" then NamedEscape start
          else match after_backslash c with
               | inl cps => scan Plain start (S pos) (rev cps ++ out) rest
               | inr m' => scan m' start (S pos) out rest
               end
      | HexDigits letter need acc =>
          match hex_digit c with
          | None => SyntaxError start (truncated letter)
          | Some d =>
              let acc' := (16 * acc + d)%N in
              match need with
              | S (S need') => scan (HexDigits letter (S need') acc') start (S pos) out rest
              | _ =>
                  if (1114111 <? acc')%N
                  then SyntaxError start "illegal Unicode character"
                  else scan Plain start (S pos) (acc' :: out) rest
              end
          end
      | OctDigits room acc =>
          match oct_digit c, room with
          | Some d, S room' =>
              scan (OctDigits room' (8 * acc + d)%N) start (S pos) out rest
          | _, _ =>
              if Ascii.eqb c "\" then scan Escape pos (S pos) (acc :: out) rest
              else scan Plain start (S pos) (N_of_ascii c :: acc :: out) rest
          end
      end
  end.

Definition eval (body : string) : value :=
  scan Plain 0 0 [] (list_ascii_of_string body).

(** Code points below 256 as characters of a [string]. *)
Fixpoint latin1 (cps : list N) : option string :=
  match cps with
  | [] => Some EmptyString
  | n :: rest =>
      if (n <? 256)%N
      then match latin1 rest with
           | Some s => Some (String (ascii_of_N n) s)
           | None => None
           end
      else None
  end.

End PyLiteral.

(** Line 81: the characters between the quotes of the literal that is
    prepended to the content of [python310._pth]. *)
Definition pth_prefix_literal : string := "..\n..\src\n..\src\utils\n".

(** The value of that literal, when it has one. *)
Definition pth_prefix_value : option string :=
  match PyLiteral.eval pth_prefix_literal with
  | PyLiteral.Str cps => PyLiteral.latin1 cps
  | _ => None
  end.

(** ** Text and paths *)

(** [str.lower] on code points below 256: it moves the ASCII capitals and
    the Latin-1 capitals (all of 192..222 but the multiplication sign) and
    nothing else. *)
Definition lower_char (c : ascii) : ascii :=
  let n := N_of_ascii c in
  if ((65 <=? n) && (n <=? 90))%N then ascii_of_N (n + 32)
  else if ((192 <=? n) && (n <=? 222) && negb (n =? 215))%N then ascii_of_N (n + 32)
  else c.

Fixpoint lower (s : string) : string :=
  match s with
  | EmptyString => EmptyString
  | String c rest => String (lower_char c) (lower rest)
  end.

(** The line feed, written [\n] in the source's literals. *)
Definition nl : string := String (ascii_of_N 10) EmptyString.

(** The carriage return and the line feed. *)
Definition cr : ascii := ascii_of_N 13.
Definition lf : ascii := ascii_of_N 10.

(** What a text-mode read makes of line endings ([newline=None]): a
    carriage return with its line feed, and a carriage return alone, both
    become one line feed. *)
Fixpoint universal_newlines (s : string) : string :=
  match s with
  | EmptyString => EmptyString
  | String c rest =>
      if Ascii.eqb c cr then
        match rest with
        | String c' rest' =>
            if Ascii.eqb c' lf
            then String lf (universal_newlines rest')
            else String lf (universal_newlines rest)
        | EmptyString => String lf EmptyString
        end
      else String c (universal_newlines rest)
  end.

(** A [pathlib.Path] as its [parts]: the anchor first, then one component
    per level. *)
Definition Path : Type := list string.

(** [p / name] for a one-component relative [name]. *)
Definition joinpath (p : Path) (name : string) : Path := p ++ [name].
Infix "//" := joinpath (at level 40, left associativity).

Definition parent (p : Path) : Path := removelast p.

(** [str(p)]: the anchor followed by the components joined by [os.sep]. *)
Definition path_str (sep : string) (p : Path) : string :=
  match p with
  | [] => "."
  | anchor :: rest => anchor +:+ String.concat sep rest
  end.

(** ** The world *)

(** What a path leads to. *)
Inductive Node :=
| File (content : string)
| Dir.

(** The calls that reach outside the interpreter, recorded when they are
    made, whether or not they succeed. *)
Inductive Event :=
| EvPrint (line : string)
| EvPlatform (attribute : string)
| EvMkdir (p : Path)
| EvExists (p : Path)
| EvRead (p : Path)
| EvWrite (p : Path) (content : string)
| EvUrlretrieve (url : string) (filename : Path)
| EvExtractall (zip_path extract_to : Path)
| EvUnlink (p : Path)
| EvRun (argv : list string).

(** The file system, and the calls so far, oldest first. *)
Record World := mkWorld {
  fs : gmap Path Node;
  events : list Event
}.

(** The exceptions the library calls raise; the script catches none. *)
Inductive Exn :=
| FileExistsError (p : Path)
| FileNotFoundError (p : Path)
| IsADirectoryError (p : Path)
| URLError (url : string)
| ContentTooShortError (url : string)
| BadZipFile (p : Path)
| OSError (argv : list string)
| UnicodeDecodeError (p : Path).

(** A call returns a value or raises. *)
Inductive Outcome (A : Type) :=
| Returned (a : A)
| Raised (e : Exn).
Arguments Returned {A} a.
Arguments Raised {A} e.

(** What [urllib.request.urlretrieve] can meet: the whole body, a body
    shorter than the announced length, or no answer at all. *)
Inductive Response :=
| Body (data : string)
| ShortBody (data : string)
| Unreachable.

(** A member of a zip archive: a file with its data, or a directory
    entry. *)
Inductive Entry :=
| FileEntry (data : string)
| DirEntry.

(** Everything the script reads from outside its own text. *)
Record Env := mkEnv {
  platform_system : string;
  platform_machine : string;
  (** [Path(__file__).parent.parent.absolute()] *)
  project_root : Path;
  os_sep : string;
  urlopen : string -> Response;
  (** [zipfile]: the members of an archive in their order, each under the
      relative name it is unpacked to, or nothing when the data is not a
      zip archive *)
  zip_members : string -> option (list (Path * Entry));
  (** a child process: it may fail to start; otherwise it leaves a file
      system and an exit status *)
  run_process : list string -> gmap Path Node -> option (Z * gmap Path Node);
  (** the locale's codec, which a text-mode [open] reads with: the text of
      the data, or nothing when the codec refuses it *)
  decode : string -> option string
}.

(** ** The monad: state and exceptions *)

Definition M (A : Type) : Type := World -> Outcome A * World.

Definition ret {A} (a : A) : M A := fun w => (Returned a, w).

Definition raise {A} (e : Exn) : M A := fun w => (Raised e, w).

Definition bind {A B} (m : M A) (k : A -> M B) : M B :=
  fun w =>
    match m w with
    | (Returned a, w') => k a w'
    | (Raised e, w') => (Raised e, w')
    end.

Declare Scope py_scope.
Delimit Scope py_scope with py.
Notation "x <- c1 ;; c2" := (bind c1 (fun x => c2))
  (at level 100, c1 at next level, right associativity) : py_scope.
Notation "c1 ;; c2" := (bind c1 (fun _ => c2))
  (at level 100, right associativity) : py_scope.
Local Open Scope py_scope.

Definition emit (e : Event) : M unit :=
  fun w => (Returned tt, mkWorld (fs w) (events w ++ [e])).

Definition get_fs : M (gmap Path Node) := fun w => (Returned (fs w), w).

Definition put_fs (f : gmap Path Node) : M unit :=
  fun w => (Returned tt, mkWorld f (events w)).

(** ** Library calls *)

Definition print (line : string) : M unit := emit (EvPrint line).

(** [Path.exists()] *)
Definition path_exists (p : Path) : M bool :=
  emit (EvExists p) ;;
  f <- get_fs ;;
  ret (bool_decide (is_Some (f !! p))).

(** What [os.mkdir] followed by the [exist_ok=True] handler does to the
    file system. *)
Definition fs_mkdir (p : Path) (f : gmap Path Node) : Exn + gmap Path Node :=
  match f !! p with
  | Some Dir => inr f
  | Some (File _) => inl (FileExistsError p)
  | None =>
      match f !! parent p with
      | Some Dir => inr (<[p := Dir]> f)
      | _ => inl (FileNotFoundError p)
      end
  end.

(** Opening for writing, writing [data] and closing. *)
Definition fs_write (p : Path) (data : string) (f : gmap Path Node)
  : Exn + gmap Path Node :=
  match f !! p with
  | Some Dir => inl (IsADirectoryError p)
  | Some (File _) => inr (<[p := File data]> f)
  | None =>
      match f !! parent p with
      | Some Dir => inr (<[p := File data]> f)
      | _ => inl (FileNotFoundError p)
      end
  end.

Definition lift_fs (op : gmap Path Node -> Exn + gmap Path Node) : M unit :=
  f <- get_fs ;;
  match op f with
  | inl e => raise e
  | inr f' => put_fs f'
  end.

(** [Path.mkdir(exist_ok=True)] *)
Definition mkdir_exist_ok (p : Path) : M unit :=
  emit (EvMkdir p) ;; lift_fs (fs_mkdir p).

(** [with open(p, 'w') as f: f.write(data)]: the file is kept as the text
    written. *)
Definition write_text (p : Path) (data : string) : M unit :=
  emit (EvWrite p data) ;; lift_fs (fs_write p data).

(** [with open(p, 'r') as f: f.read()]: the data is decoded, then its
    line endings are translated. *)
Definition read_text (E : Env) (p : Path) : M string :=
  emit (EvRead p) ;;
  f <- get_fs ;;
  match f !! p with
  | Some (File data) =>
      match decode E data with
      | Some text => ret (universal_newlines text)
      | None => raise (UnicodeDecodeError p)
      end
  | Some Dir => raise (IsADirectoryError p)
  | None => raise (FileNotFoundError p)
  end.

(** [Path.unlink()] *)
Definition unlink (p : Path) : M unit :=
  emit (EvUnlink p) ;;
  f <- get_fs ;;
  match f !! p with
  | Some (File _) => put_fs (delete p f)
  | Some Dir => raise (IsADirectoryError p)
  | None => raise (FileNotFoundError p)
  end.

(** [urllib.request.urlretrieve(url, filename)]: the URL is opened first,
    then the file; a short body is written before the error is raised. *)
Definition urlretrieve (E : Env) (url : string) (filename : Path) : M unit :=
  emit (EvUrlretrieve url filename) ;;
  match urlopen E url with
  | Unreachable => raise (URLError url)
  | Body data => lift_fs (fs_write filename data)
  | ShortBody data =>
      lift_fs (fs_write filename data) ;; raise (ContentTooShortError url)
  end.

(** A change of the file system that may stop half-way: the error, if
    any, and the file system as it stands then. *)
Definition fs_partial : Type := gmap Path Node -> option Exn * gmap Path Node.

Definition fs_try (op : gmap Path Node -> Exn + gmap Path Node) : fs_partial :=
  fun f =>
    match op f with
    | inl e => (Some e, f)
    | inr f' => (None, f')
    end.

(** One change after the other, up to the first that fails; what the
    earlier ones did stays. *)
Fixpoint fs_steps (ops : list fs_partial) : fs_partial :=
  fun f =>
    match ops with
    | [] => (None, f)
    | op :: rest =>
        match op f with
        | (None, f') => fs_steps rest f'
        | (Some e, f') => (Some e, f')
        end
    end.

(** [not os.path.exists(p)] *)
Definition missing (f : gmap Path Node) (p : Path) : bool :=
  match f !! p with
  | Some _ => false
  | None => true
  end.

(** [os.mkdir] *)
Definition os_mkdir (p : Path) (f : gmap Path Node) : Exn + gmap Path Node :=
  match f !! p with
  | Some _ => inl (FileExistsError p)
  | None =>
      match f !! parent p with
      | Some Dir => inr (<[p := Dir]> f)
      | _ => inl (FileNotFoundError p)
      end
  end.

(** [os.makedirs(name)], with [name] given by its components, the last
    one first: when the directory above is missing it is made first, with
    all that is missing above it, and a [FileExistsError] from there is
    passed over; then [name] is made. *)
Fixpoint makedirs_from (rev_name : list string) : fs_partial :=
  fun f =>
    match rev_name with
    | [] => fs_try (os_mkdir []) f
    | _ :: rev_head =>
        let head := rev rev_head in
        let above :=
          match rev_head with
          | [] => (None, f)
          | _ => if missing f head then makedirs_from rev_head f else (None, f)
          end in
        match above with
        | (None, f') | (Some (FileExistsError _), f') =>
            fs_try (os_mkdir (rev rev_name)) f'
        | (Some e, f') => (Some e, f')
        end
    end.

Definition makedirs (name : Path) : fs_partial := makedirs_from (rev name).

(** [ZipFile._extract_member]: the directory above the target is made,
    with all that is missing above it, unless it is there; then a
    directory entry is made unless it is there, and a file entry is
    written. *)
Definition fs_extract_member (extract_to : Path) (member : Path * Entry)
  : fs_partial :=
  let targetpath := extract_to ++ fst member in
  let upperdirs := parent targetpath in
  fs_steps
    [ (fun f =>
         match upperdirs with
         | [] => (None, f)
         | _ => if missing f upperdirs then makedirs upperdirs f else (None, f)
         end);
      match snd member with
      | DirEntry => fs_try (fs_mkdir targetpath)
      | FileEntry data => fs_try (fs_write targetpath data)
      end ].

(** [zipfile.ZipFile(zip_path, 'r').extractall(extract_to)]: the members
    one after the other; what was unpacked before an error stays. *)
Definition extractall (E : Env) (zip_path extract_to : Path) : M unit :=
  emit (EvExtractall zip_path extract_to) ;;
  f <- get_fs ;;
  match f !! zip_path with
  | Some (File data) =>
      match zip_members E data with
      | Some members =>
          let '(error, f') := fs_steps (map (fs_extract_member extract_to) members) f in
          put_fs f' ;;
          match error with
          | Some e => raise e
          | None => ret tt
          end
      | None => raise (BadZipFile zip_path)
      end
  | Some Dir => raise (IsADirectoryError zip_path)
  | None => raise (FileNotFoundError zip_path)
  end.

(** [subprocess.run(argv)]; the [CompletedProcess] carries the exit status. *)
Definition subprocess_run (E : Env) (argv : list string) : M Z :=
  emit (EvRun argv) ;;
  f <- get_fs ;;
  match run_process E argv f with
  | Some (status, f') => put_fs f' ;; ret status
  | None => raise (OSError argv)
  end.

(** ** The script *)

Definition python_url_amd64 : string :=
  "https://www.python.org/ftp/python/3.10.11/python-3.10.11-embed-amd64.zip".

Definition python_url_win32 : string :=
  "https://www.python.org/ftp/python/3.10.11/python-3.10.11-embed-win32.zip".

Definition get_pip_url : string := "https://bootstrap.pypa.io/get-pip.py".

Section Script.

Variable E : Env.

(** The value of the literal of line 81 ([pth_prefix_literal]). *)
Variable pth_prefix : string.

(** [str(p)] *)
Definition str (p : Path) : string := path_str (os_sep E) p.

Definition get_python_download_url : M (option string) :=
  emit (EvPlatform "system") ;;
  let system := lower (platform_system E) in
  emit (EvPlatform "machine") ;;
  let machine := lower (platform_machine E) in
  if String.eqb system "windows" then
    if String.eqb machine "amd64" || String.eqb machine "x86_64" then
      ret (Some python_url_amd64)
    else
      ret (Some python_url_win32)
  else if String.eqb system "linux" then
    ret None
  else if String.eqb system "darwin" then
    ret None
  else ret None.

Definition download_file (url : string) (filename : Path) : M unit :=
  print ("Downloading " +:+ url +:+ "...") ;;
  urlretrieve E url filename ;;
  print ("Downloaded to " +:+ str filename).

Definition extract_zip (zip_path extract_to : Path) : M unit :=
  print ("Extracting " +:+ str zip_path +:+ "...") ;;
  extractall E zip_path extract_to ;;
  print ("Extracted to " +:+ str extract_to).

(** The text written to [activate_portable.bat], with [root] for
    [{project_root}] and [python] for [{python_dir}]. *)
Definition activate_bat_text (root python : string) : string :=
  "@echo off" +:+ nl +:+
  "echo Activating portable Python environment..." +:+ nl +:+
  "set PYTHONPATH=" +:+ root +:+ ";" +:+ root +:+ "\src;" +:+ root
    +:+ "\src\utils;%PYTHONPATH%" +:+ nl +:+
  "set PATH=" +:+ python +:+ ";" +:+ python +:+ "\Scripts;%PATH%" +:+ nl +:+
  "echo Portable Python environment activated." +:+ nl +:+
  "echo To run the application, use: python src\main.py" +:+ nl +:+
  "cmd /k" +:+ nl.

Definition deactivate_bat_text : string :=
  "@echo off" +:+ nl +:+
  "echo Deactivating portable Python environment..." +:+ nl +:+
  "set PYTHONPATH=" +:+ nl +:+
  "set PATH=%ORIGINAL_PATH%" +:+ nl +:+
  "echo Portable Python environment deactivated." +:+ nl +:+
  "cmd /k" +:+ nl.

Definition create_activation_scripts : M unit :=
  let project_root := project_root E in
  let portable_dir := project_root // "portable_python" in
  let python_dir := portable_dir // "python" in
  let activate_bat := project_root // "activate_portable.bat" in
  write_text activate_bat (activate_bat_text (str project_root) (str python_dir)) ;;
  let deactivate_bat := project_root // "deactivate_portable.bat" in
  write_text deactivate_bat deactivate_bat_text ;;
  print "Activation scripts created:" ;;
  print ("  - " +:+ str activate_bat) ;;
  print ("  - " +:+ str deactivate_bat).

(** Lines 72-84 of [setup_portable_python]: the rewrite of
    [python310._pth]. *)
Definition configure_pth (python_dir : Path) : M unit :=
  let pth_file := python_dir // "python310._pth" in
  present <- path_exists pth_file ;;
  if present then
    content <- read_text E pth_file ;;
    let content := pth_prefix +:+ content in
    write_text pth_file content
  else ret tt.

(** Lines 86-95 of [setup_portable_python]: [get-pip.py] is fetched
    unless it is there, then run. *)
Definition install_pip (portable_dir python_dir : Path) : M unit :=
  let pip_script := portable_dir // "get-pip.py" in
  present <- path_exists pip_script ;;
  (if negb present then
     print "Downloading get-pip.py..." ;;
     urlretrieve E get_pip_url pip_script
   else ret tt) ;;
  print "Installing pip..." ;;
  let python_exe := python_dir // "python.exe" in
  subprocess_run E [str python_exe; str pip_script; "--no-warn-script-location"] ;;
  ret tt.

(** The argument list of the dependency installation (line 101). *)
Definition pip_install_argv (python_exe requirements_file : Path) : list string :=
  [str python_exe; "-m"; "pip"; "install"; "-r"; str requirements_file;
   "--no-warn-script-location"].

(** Lines 97-111 of [setup_portable_python]. *)
Definition install_requirements (project_root python_dir : Path) : M bool :=
  let python_exe := python_dir // "python.exe" in
  let requirements_file := project_root // "requirements.txt" in
  present <- path_exists requirements_file ;;
  if present then
    print "Installing project dependencies..." ;;
    subprocess_run E (pip_install_argv python_exe requirements_file) ;;
    create_activation_scripts ;;
    print "Portable Python environment setup complete!" ;;
    print ("Python executable: " +:+ str python_exe) ;;
    ret true
  else
    print "requirements.txt not found. Please create it with your project dependencies." ;;
    ret false.

(** Lines 59-66: the branch taken when [python_url] is truthy. *)
Definition fetch_runtime (url : string) (portable_dir python_dir : Path) : M unit :=
  let python_zip := portable_dir // "python.zip" in
  download_file url python_zip ;;
  extract_zip python_zip python_dir ;;
  unlink python_zip.

(** Lines 55-57: both directories, outermost first. *)
Definition make_directories (portable_dir python_dir : Path) : M unit :=
  mkdir_exist_ok portable_dir ;;
  mkdir_exist_ok python_dir.

Definition setup_portable_python : M bool :=
  let project_root := project_root E in
  let portable_dir := project_root // "portable_python" in
  let python_dir := portable_dir // "python" in
  print ("Setting up portable Python environment in " +:+ str python_dir) ;;
  make_directories portable_dir python_dir ;;
  python_url <- get_python_download_url ;;
  match python_url with
  | Some (String _ _ as url) =>
      fetch_runtime url portable_dir python_dir ;;
      configure_pth python_dir ;;
      install_pip portable_dir python_dir ;;
      install_requirements project_root python_dir
  | _ =>
      print "Could not determine Python download URL for your system." ;;
      print "Please install Python 3.10 manually in the portable_python/python directory." ;;
      ret false
  end.

End Script.

(** The script as the interpreter loads it: a literal without a value is a
    compile-time error of the whole file, and then no function of the
    script exists. *)
Definition load_script (E : Env) : option (M bool) :=
  match pth_prefix_value with
  | Some prefix => Some (setup_portable_python E prefix)
  | None => None
  end.

(** ** Vocabulary of the properties *)

(** The paths the script derives from the project root. *)
Definition portable_dir (E : Env) : Path := project_root E // "portable_python".
Definition python_dir (E : Env) : Path := portable_dir E // "python".
Definition python_exe (E : Env) : Path := python_dir E // "python.exe".
Definition python_zip (E : Env) : Path := portable_dir E // "python.zip".
Definition pth_file (E : Env) : Path := python_dir E // "python310._pth".
Definition pip_script (E : Env) : Path := portable_dir E // "get-pip.py".
Definition requirements_file (E : Env) : Path := project_root E // "requirements.txt".
Definition activate_bat (E : Env) : Path := project_root E // "activate_portable.bat".
Definition deactivate_bat (E : Env) : Path := project_root E // "deactivate_portable.bat".

(** The two command lines. *)
Definition bootstrap_argv (E : Env) : list string :=
  [str E (python_exe E); str E (pip_script E); "--no-warn-script-location"].
Definition install_argv (E : Env) : list string :=
  pip_install_argv E (python_exe E) (requirements_file E).

(** The platform descriptors for which an archive is offered. *)
Definition supported (E : Env) : Prop := lower (platform_system E) = "windows".

(** The first of the two architecture buckets. *)
Definition is_64bit (E : Env) : bool :=
  String.eqb (lower (platform_machine E)) "amd64"
  || String.eqb (lower (platform_machine E)) "x86_64".

(** Both directories are there or can be made: nothing but a directory
    sits at either path, and a missing [portable_python] has the project
    root above it. *)
Definition directories_can_be_made (E : Env) (f : gmap Path Node) : Prop :=
  (f !! portable_dir E = Some Dir
   \/ (f !! portable_dir E = None /\ f !! project_root E = Some Dir))
  /\ (f !! python_dir E = Some Dir \/ f !! python_dir E = None).

(** The first line the script prints. *)
Definition banner (E : Env) : Event :=
  EvPrint ("Setting up portable Python environment in " +:+ str E (python_dir E)).

(** The calls made between two worlds of one run. *)
Definition since (w w' : World) : list Event :=
  drop (length (events w)) (events w').

(** Every call [m] makes is added at the end of the record, and satisfies
    [P]. *)
Definition emits {A : Type} (P : Event -> Prop) (m : M A) : Prop :=
  forall w, exists l, events (snd (m w)) = events w ++ l /\ Forall P l.

(** Calls that belong to what follows the search for the requirements:
    that search itself, the dependency installation, and writing either
    batch file. *)
Definition past_requirements (E : Env) (e : Event) : Prop :=
  match e with
  | EvExists p => p = requirements_file E
  | EvRun argv => argv = install_argv E
  | EvWrite p _ => p = activate_bat E \/ p = deactivate_bat E
  | _ => False
  end.

(** No child process creates [q]. *)
Definition children_leave_absent (E : Env) (q : Path) : Prop :=
  forall argv f st f',
    run_process E argv f = Some (st, f') -> f !! q = None -> f' !! q = None.

(** [m] does not create [q]. *)
Definition keeps_absent {A : Type} (q : Path) (m : M A) : Prop :=
  forall w, fs w !! q = None -> fs (snd (m w)) !! q = None.

(** What [setup_portable_python] does between resolving [url] and looking
    for the requirements (lines 62-95). *)
Definition provision (E : Env) (prefix url : string) : M unit :=
  (fetch_runtime E url (portable_dir E) (python_dir E) ;;
   configure_pth E prefix (python_dir E) ;;
   install_pip E (portable_dir E) (python_dir E))%py.

(** The calls of the unsupported-platform exit. *)
Definition diagnostics : list Event :=
  [EvPlatform "system"; EvPlatform "machine";
   EvPrint "Could not determine Python download URL for your system.";
   EvPrint "Please install Python 3.10 manually in the portable_python/python directory."].

(** The calls of the missing-requirements exit. *)
Definition requirements_not_found (E : Env) : list Event :=
  [EvExists (requirements_file E);
   EvPrint "requirements.txt not found. Please create it with your project dependencies."].

(** [op] does not create [q]. *)
Definition fs_keeps_absent (q : Path)
  (op : gmap Path Node -> Exn + gmap Path Node) : Prop :=
  forall f f', op f = inr f' -> f !! q = None -> f' !! q = None.

(** Calls that fetch, unpack, run or write: everything beyond printing,
    making directories and asking for the platform. *)
Definition provisioning (e : Event) : bool :=
  match e with
  | EvPrint _ | EvPlatform _ | EvMkdir _ => false
  | _ => true
  end.

(** An environment whose child processes do the same to the file system
    but end with the statuses [st]. *)
Definition with_status (st : list string -> gmap Path Node -> Z) (E : Env) : Env :=
  mkEnv (platform_system E) (platform_machine E) (project_root E) (os_sep E)
        (urlopen E) (zip_members E)
        (fun argv f =>
           match run_process E argv f with
           | Some (_, f') => Some (st argv f, f')
           | None => None
           end)
        (decode E).

(** [p] occurs in [s]. *)
Definition occurs_in (p s : string) : Prop :=
  exists before after, s = before +:+ p +:+ after.

Fixpoint starts_with (p s : string) : bool :=
  match p, s with
  | EmptyString, _ => true
  | String a p', String b s' => Ascii.eqb a b && starts_with p' s'
  | String _ _, EmptyString => false
  end.

Fixpoint occurs_inb (p s : string) : bool :=
  starts_with p s ||
  match s with
  | EmptyString => false
  | String _ s' => occurs_inb p s'
  end.

(** A download URL: [https://], a host of letters, digits, dots and
    hyphens, and a path of printable characters that need no quoting,
    ending in [.zip]. *)
Definition host_char (c : ascii) : bool :=
  let n := N_of_ascii c in
  ((48 <=? n) && (n <=? 57) || (65 <=? n) && (n <=? 90)
   || (97 <=? n) && (n <=? 122) || (n =? 45) || (n =? 46))%N.

Definition path_char (c : ascii) : bool :=
  host_char c || Ascii.eqb c "/" || Ascii.eqb c "_" || Ascii.eqb c "~".

Fixpoint split_host (s : string) : string * string :=
  match s with
  | EmptyString => (EmptyString, EmptyString)
  | String c rest =>
      if Ascii.eqb c "/" then (EmptyString, s)
      else let '(h, p) := split_host rest in (String c h, p)
  end.

Fixpoint all_chars (ok : ascii -> bool) (s : string) : bool :=
  match s with
  | EmptyString => true
  | String c rest => ok c && all_chars ok rest
  end.

Fixpoint ends_with_zip (s : string) : bool :=
  String.eqb s ".zip" ||
  match s with
  | EmptyString => false
  | String _ rest => ends_with_zip rest
  end.

Definition well_formed_url (url : string) : bool :=
  starts_with "https://" url &&
  let '(host, path) := split_host (String.substring 8 (String.length url - 8) url) in
  negb (String.eqb host "") && all_chars host_char host &&
  starts_with "/" path && all_chars path_char path && ends_with_zip path.

(** ** A concrete installation

    A Windows machine with the project in [C:\proj]; the archive holds the
    interpreter, its path file with the line endings of that platform, and
    a directory with a module; the locale's codec is ASCII; the installer
    leaves [pip.exe] behind and ends with status 1. *)
Module Sample.

Definition root : Path := ["C:\"; "proj"].

Definition crlf : string := String cr (String lf EmptyString).

Definition archive : list (Path * Entry) :=
  [(["python.exe"], FileEntry "MZ");
   (["python310._pth"], FileEntry ("python310.zip" +:+ crlf +:+ "." +:+ crlf));
   (["Lib"], DirEntry);
   (["Lib"; "site.py"], FileEntry "import sys")].

Definition net (url : string) : Response :=
  if String.eqb url python_url_amd64 then Body "PK-amd64"
  else if String.eqb url get_pip_url then Body "#!/usr/bin/env python"
  else Unreachable.

Definition unzip (data : string) : option (list (Path * Entry)) :=
  if String.eqb data "PK-amd64" then Some archive else None.

Definition child (argv : list string) (f : gmap Path Node)
  : option (Z * gmap Path Node) :=
  match argv with
  | [_; _; _] =>
      Some (1%Z, <[root // "portable_python" // "python" // "pip.exe" := File "MZ"]> f)
  | _ => Some (0%Z, f)
  end.

Definition codec (data : string) : option string :=
  if all_chars (fun c => (N_of_ascii c <? 128)%N) data then Some data else None.

Definition windows : Env :=
  mkEnv "Windows" "AMD64" root "\" net unzip child codec.

Definition linux : Env :=
  mkEnv "Linux" "x86_64" ["/"; "home"; "proj"] "/" net unzip child codec.

(** The project as checked out: the script in its directory, and the
    requirements. *)
Definition disk : gmap Path Node :=
  <[root // "requirements.txt" := File "requests"]>
  (<[root // "portable_python" // "setup_portable_env.py" := File "#!/usr/bin/env python3"]>
  (<[root // "portable_python" := Dir]>
  (<[root := Dir]>
  (<[["C:\"] := Dir]> ∅)))).

Definition world : World := mkWorld disk [].

(** The same without [requirements.txt]. *)
Definition bare : World := mkWorld (delete (root // "requirements.txt") disk) [].

Definition linux_world : World :=
  mkWorld (<[["/"; "home"; "proj"; "portable_python"] := Dir]>
          (<[["/"; "home"; "proj"] := Dir]>
          (<[["/"; "home"] := Dir]>
          (<[["/"] := Dir]> ∅)))) [].

(** A line-81 value that the literal was meant to have. *)
Definition prefix : string :=
  ".." +:+ nl +:+ "..\src" +:+ nl +:+ "..\src\utils" +:+ nl.

End Sample.

(** ** Further vocabulary *)

(** [op] leaves [q] as it is. *)
Definition fs_preserves (q : Path)
  (op : gmap Path Node -> Exn + gmap Path Node) : Prop :=
  forall f f', op f = inr f' -> f' !! q = f !! q.

(** [m] leaves [q] as it is, whether it returns or raises. *)
Definition preserves {A : Type} (q : Path) (m : M A) : Prop :=
  forall w, fs (snd (m w)) !! q = fs w !! q.

(** No child process touches [q]. *)
Definition children_preserve (E : Env) (q : Path) : Prop :=
  forall argv f st f',
    run_process E argv f = Some (st, f') -> f' !! q = f !! q.


(** A regular file sits at [p]. *)
Definition is_file (f : gmap Path Node) (p : Path) : Prop :=
  exists data, f !! p = Some (File data).

(** The calls the script can make: each kind of call with the only
    arguments the script ever gives it. *)
Definition script_call (E : Env) (e : Event) : Prop :=
  match e with
  | EvPrint _ => True
  | EvPlatform attribute => attribute = "system" \/ attribute = "machine"
  | EvMkdir p => p = portable_dir E \/ p = python_dir E
  | EvExists p => p = pth_file E \/ p = pip_script E \/ p = requirements_file E
  | EvRead p => p = pth_file E
  | EvWrite p _ => p = pth_file E \/ p = activate_bat E \/ p = deactivate_bat E
  | EvUrlretrieve url filename =>
      ((url = python_url_amd64 \/ url = python_url_win32) /\ filename = python_zip E)
      \/ (url = get_pip_url /\ filename = pip_script E)
  | EvExtractall zip_path extract_to =>
      zip_path = python_zip E /\ extract_to = python_dir E
  | EvUnlink p => p = python_zip E
  | EvRun argv => argv = bootstrap_argv E \/ argv = install_argv E
  end.

(** The last lines of a successful run. *)
Definition closing_calls (E : Env) : list Event :=
  [EvWrite (activate_bat E)
     (activate_bat_text (str E (project_root E)) (str E (python_dir E)));
   EvWrite (deactivate_bat E) deactivate_bat_text;
   EvPrint "Activation scripts created:";
   EvPrint ("  - " +:+ str E (activate_bat E));
   EvPrint ("  - " +:+ str E (deactivate_bat E));
   EvPrint "Portable Python environment setup complete!";
   EvPrint ("Python executable: " +:+ str E (python_exe E))].

(** ** Further installations *)
Module Faults.

(** The network of [Sample], but [get-pip.py] arrives cut short. *)
Definition short_net (url : string) : Response :=
  if String.eqb url get_pip_url then ShortBody "#!/usr/bin"
  else Sample.net url.

(** The network of [Sample], but what is served as the archive is not
    one. *)
Definition junk_net (url : string) : Response :=
  if String.eqb url python_url_amd64 then Body "<html>" else Sample.net url.

Definition short_pip : Env :=
  mkEnv "Windows" "AMD64" Sample.root "\" short_net Sample.unzip Sample.child
        Sample.codec.

Definition junk_archive : Env :=
  mkEnv "Windows" "AMD64" Sample.root "\" junk_net Sample.unzip Sample.child
        Sample.codec.



(** The project with the archive downloaded and the runtime directory
    made, and an older [python310._pth] in it. *)
Definition downloaded : World :=
  mkWorld (<[python_zip Sample.windows := File "PK-amd64"]>
          (<[pth_file Sample.windows := File "stale"]>
          (<[python_dir Sample.windows := Dir]> Sample.disk))) [].

(** The project with what [junk_net] serves saved as the archive. *)
Definition junk_downloaded : World :=
  mkWorld (<[python_zip Sample.windows := File "<html>"]>
          (<[python_dir Sample.windows := Dir]> Sample.disk)) [].

(** The project with a directory where [python310._pth] should be. *)
Definition pth_is_directory : World :=
  mkWorld (<[pth_file Sample.windows := Dir]>
          (<[python_dir Sample.windows := Dir]> Sample.disk)) [].

(** The project with a directory where [deactivate_portable.bat] should
    be. *)
Definition deactivate_is_directory : World :=
  mkWorld (<[deactivate_bat Sample.windows := Dir]> Sample.disk) [].

(** The project with a regular file where the runtime directory should
    be. *)
Definition python_is_file : World :=
  mkWorld (<[python_dir Sample.windows := File "oops"]> Sample.disk) [].

End Faults.

(** * Properties *)

(** ** Generic facts *)

Lemma since_app (w : World) (f : gmap Path Node) (l : list Event) :
  since w (mkWorld f (events w ++ l)) = l.
Proof. unfold since; simpl. apply drop_app_length. Qed.

Ltac unfold_lib :=
  unfold path_exists, mkdir_exist_ok, write_text, read_text, unlink,
    urlretrieve, extractall, subprocess_run, print, lift_fs,
    bind, ret, raise, emit, get_fs, put_fs in *;
  cbn [fs events fst snd] in *.

Ltac tidy_events := rewrite <- ?app_assoc; cbn [app].

Ltac tidy :=
  cbn [fst snd fs events]; rewrite <- ?app_assoc; cbn [app];
  rewrite ?since_app.

(** ** The literal of line 81 *)

(** C1 (the path file is rewritten to three prepended lines followed by its
    old text): the code falls short of it before it runs.  The literal of
    line 81 has no value: its third backslash escape is [\u] followed by
    [tils], and a [\u] escape needs four hexadecimal digits, so the compiler
    rejects the literal at offset 18, and with it the whole script, for
    every environment. *)
Theorem pth_prefix_literal_rejected :
  PyLiteral.eval pth_prefix_literal = PyLiteral.SyntaxError 18 "truncated \uXXXX escape"
  /\ forall E, load_script E = None.
Proof. split; [reflexivity | intros E; reflexivity]. Qed.

(** ** Platform resolution *)

(** C2: for every platform descriptor, [get_python_download_url] returns a
    well-formed download URL exactly when the descriptor is supported (the
    system is Windows, whatever the machine: one URL for the 64-bit bucket,
    one for every other machine), and [None] for every other descriptor; it
    never raises. *)
Theorem get_python_download_url_resolves (E : Env) (w : World) :
  match fst (get_python_download_url E w) with
  | Returned (Some url) =>
      supported E
      /\ url = (if is_64bit E then python_url_amd64 else python_url_win32)
      /\ well_formed_url url = true
  | Returned None => ~ supported E
  | Raised _ => False
  end.
Proof.
  unfold get_python_download_url, supported, is_64bit. unfold_lib.
  destruct (String.eqb_spec (lower (platform_system E)) "windows") as [Hw | Hw].
  - destruct (String.eqb (lower (platform_machine E)) "amd64"
              || String.eqb (lower (platform_machine E)) "x86_64"); simpl;
      repeat split; try assumption; reflexivity.
  - destruct (String.eqb (lower (platform_system E)) "linux");
      [| destruct (String.eqb (lower (platform_system E)) "darwin")];
      simpl; assumption.
Qed.

(** ** The path file *)

(** C5: when [python310._pth] is not in the runtime directory, the rewrite
    step only looks for it: it returns normally, leaves the file system as it
    was and prints nothing, so the workflow goes on to its next step. *)
Theorem configure_pth_absent (E : Env) (prefix : string) (dir : Path) (w : World) :
  fs w !! (dir // "python310._pth") = None ->
  configure_pth E prefix dir w
  = (Returned tt, mkWorld (fs w) (events w ++ [EvExists (dir // "python310._pth")])).
Proof.
  intros H. unfold configure_pth. unfold_lib. rewrite H. reflexivity.
Qed.

Lemma configure_pth_absent_witness :
  configure_pth Sample.windows Sample.prefix (python_dir Sample.windows) Sample.world
  = (Returned tt, mkWorld Sample.disk [EvExists (pth_file Sample.windows)]).
Proof.
  apply (configure_pth_absent Sample.windows Sample.prefix
           (python_dir Sample.windows) Sample.world).
  vm_compute. reflexivity.
Defined.

(** With the file there, and whatever value [prefix] the literal is given,
    the step writes [prefix] followed by the text read: what the codec makes
    of the file, with line feeds for its line endings. *)
Lemma configure_pth_prepends (E : Env) (prefix : string) (dir : Path) (w : World)
  (data text : string) :
  fs w !! (dir // "python310._pth") = Some (File data) ->
  decode E data = Some text ->
  configure_pth E prefix dir w
  = (Returned tt,
     mkWorld (<[dir // "python310._pth" := File (prefix +:+ universal_newlines text)]> (fs w))
             (events w ++ [EvExists (dir // "python310._pth");
                           EvRead (dir // "python310._pth");
                           EvWrite (dir // "python310._pth")
                             (prefix +:+ universal_newlines text)])).
Proof.
  intros H D. unfold configure_pth. unfold_lib. rewrite H. simpl. rewrite H, D.
  unfold fs_write. simpl. rewrite H. simpl. tidy. reflexivity.
Qed.

(** A file the codec refuses stops the step at the read, with the file as
    it was. *)
Lemma configure_pth_undecodable (E : Env) (prefix : string) (dir : Path) (w : World)
  (data : string) :
  fs w !! (dir // "python310._pth") = Some (File data) ->
  decode E data = None ->
  configure_pth E prefix dir w
  = (Raised (UnicodeDecodeError (dir // "python310._pth")),
     mkWorld (fs w)
             (events w ++ [EvExists (dir // "python310._pth");
                           EvRead (dir // "python310._pth")])).
Proof.
  intros H D. unfold configure_pth. unfold_lib. rewrite H. simpl. rewrite H, D.
  simpl. tidy. reflexivity.
Qed.

(** The three lines the literal was written for. *)
Example sample_prefix_lines :
  Sample.prefix = ".." +:+ nl +:+ "..\src" +:+ nl +:+ "..\src\utils" +:+ nl
  /\ PyLiteral.eval "..\n..\\src\n..\\src\\utils\n"
     = PyLiteral.Str (map N_of_ascii (list_ascii_of_string Sample.prefix)).
Proof. split; reflexivity. Qed.

(** ** Strings and paths *)

Lemma append_assoc (a b c : string) : (a +:+ b) +:+ c = a +:+ b +:+ c.
Proof.
  induction a as [| x a IH]; [reflexivity |].
  change (String x ((a +:+ b) +:+ c) = String x (a +:+ b +:+ c)).
  now rewrite IH.
Qed.

Lemma starts_with_app (p s : string) : starts_with p (p +:+ s) = true.
Proof.
  induction p as [| a p IH]; [reflexivity |].
  change (Ascii.eqb a a && starts_with p (p +:+ s) = true).
  rewrite Ascii.eqb_refl. exact IH.
Qed.

Lemma occurs_inb_complete (p s : string) : occurs_in p s -> occurs_inb p s = true.
Proof.
  intros (before & after & ->).
  induction before as [| c before IH].
  - change ("" +:+ p +:+ after) with (p +:+ after).
    destruct (p +:+ after) eqn:Heq; simpl;
      rewrite <- Heq, starts_with_app; reflexivity.
  - change (String c before +:+ p +:+ after)
      with (String c (before +:+ p +:+ after)).
    simpl. rewrite IH. apply orb_true_r.
Qed.

Lemma parent_joinpath (p : Path) (name : string) : parent (p // name) = p.
Proof. unfold parent, joinpath. apply removelast_last. Qed.

(** Two paths below one root differ when their components do. *)
Ltac path_neq :=
  let H := fresh in
  unfold activate_bat, deactivate_bat, requirements_file, pip_script, pth_file,
    python_zip, python_exe, python_dir, portable_dir, joinpath in *;
  intros H;
  repeat rewrite <- app_assoc in H; cbn [app] in H;
  first
    [ apply app_inv_head in H; discriminate H
    | apply (f_equal length) in H; rewrite ?length_app in H; simpl in H; lia ].

Lemma scripts_differ (E : Env) : activate_bat E <> deactivate_bat E.
Proof. path_neq. Qed.

Lemma root_not_activate (E : Env) : activate_bat E <> project_root E.
Proof. path_neq. Qed.

(** ** Writing a file *)

Lemma fs_write_ok (p : Path) (data : string) (f : gmap Path Node) :
  f !! parent p = Some Dir -> f !! p <> Some Dir ->
  fs_write p data f = inr (<[p := File data]> f).
Proof.
  intros Hpar Hnd. unfold fs_write.
  destruct (f !! p) as [[c |] |]; [reflexivity | congruence | now rewrite Hpar].
Qed.

Lemma write_text_ok (p : Path) (data : string) (w : World) :
  fs w !! parent p = Some Dir -> fs w !! p <> Some Dir ->
  write_text p data w
  = (Returned tt, mkWorld (<[p := File data]> (fs w)) (events w ++ [EvWrite p data])).
Proof.
  intros Hpar Hnd. unfold_lib. now rewrite fs_write_ok.
Qed.

Lemma create_activation_scripts_ok (E : Env) (w : World) :
  fs w !! project_root E = Some Dir ->
  fs w !! activate_bat E <> Some Dir ->
  fs w !! deactivate_bat E <> Some Dir ->
  let text := activate_bat_text (str E (project_root E)) (str E (python_dir E)) in
  create_activation_scripts E w
  = (Returned tt,
     mkWorld (<[deactivate_bat E := File deactivate_bat_text]>
                (<[activate_bat E := File text]> (fs w)))
             (events w ++ [EvWrite (activate_bat E) text;
                           EvWrite (deactivate_bat E) deactivate_bat_text;
                           EvPrint "Activation scripts created:";
                           EvPrint ("  - " +:+ str E (activate_bat E));
                           EvPrint ("  - " +:+ str E (deactivate_bat E))])).
Proof.
  intros Hroot Ha Hd text.
  unfold create_activation_scripts.
  fold (activate_bat E) (deactivate_bat E) (portable_dir E). fold (python_dir E).
  fold text.
  unfold bind at 1. rewrite write_text_ok;
    [| unfold activate_bat; now rewrite parent_joinpath | assumption].
  unfold bind at 1. rewrite write_text_ok; cbn [fs events].
  - unfold print, bind, emit; cbn [fs events]. now tidy_events.
  - unfold deactivate_bat at 1. rewrite parent_joinpath.
    rewrite lookup_insert_ne; [assumption | apply root_not_activate].
  - rewrite lookup_insert_ne; [assumption | apply scripts_differ].
Qed.

(** ** The batch files *)

Lemma activate_text_has_python_dir (root python : string) :
  occurs_in python (activate_bat_text root python).
Proof.
  exists ("@echo off" +:+ nl +:+
          "echo Activating portable Python environment..." +:+ nl +:+
          "set PYTHONPATH=" +:+ root +:+ ";" +:+ root +:+ "\src;" +:+ root
            +:+ "\src\utils;%PYTHONPATH%" +:+ nl +:+ "set PATH="),
    (";" +:+ python +:+ "\Scripts;%PATH%" +:+ nl +:+
     "echo Portable Python environment activated." +:+ nl +:+
     "echo To run the application, use: python src\main.py" +:+ nl +:+
     "cmd /k" +:+ nl).
  unfold activate_bat_text. now rewrite !append_assoc.
Qed.

(** C7, as the code has it: when the project root is a directory and neither
    batch file path is taken by a directory, [create_activation_scripts]
    returns normally; [activate_portable.bat] then holds the fixed template
    with the project root and the runtime directory substituted, so the
    literal runtime-directory path occurs in it; [deactivate_portable.bat]
    holds a fixed text; neither depends on what the files held before, and
    running the step again leaves the file system as the first run left
    it. *)
Theorem activation_scripts_overwrite (E : Env) (w : World) :
  fs w !! project_root E = Some Dir ->
  fs w !! activate_bat E <> Some Dir ->
  fs w !! deactivate_bat E <> Some Dir ->
  let text := activate_bat_text (str E (project_root E)) (str E (python_dir E)) in
  let r := create_activation_scripts E w in
  let again := create_activation_scripts E (snd r) in
  fst r = Returned tt
  /\ fs (snd r) !! activate_bat E = Some (File text)
  /\ fs (snd r) !! deactivate_bat E = Some (File deactivate_bat_text)
  /\ occurs_in (str E (python_dir E)) text
  /\ fst again = Returned tt
  /\ fs (snd again) = fs (snd r).
Proof.
  intros Hroot Ha Hd text r again.
  assert (Hr : r = create_activation_scripts E w) by reflexivity.
  rewrite create_activation_scripts_ok in Hr by assumption. fold text in Hr.
  assert (Hact : fs r.2 !! activate_bat E = Some (File text)).
  { rewrite Hr; cbn [snd fs].
    rewrite lookup_insert_ne by (intros Heq; now apply (scripts_differ E)).
    apply lookup_insert_eq. }
  assert (Hdeact : fs r.2 !! deactivate_bat E = Some (File deactivate_bat_text)).
  { rewrite Hr; cbn [snd fs]. apply lookup_insert_eq. }
  assert (Hroot' : fs r.2 !! project_root E = Some Dir).
  { rewrite Hr; cbn [snd fs].
    rewrite !lookup_insert_ne; [assumption | apply root_not_activate | path_neq]. }
  assert (Hagain : again = create_activation_scripts E r.2) by reflexivity.
  rewrite create_activation_scripts_ok in Hagain by (assumption || congruence).
  fold text in Hagain.
  repeat split.
  - now rewrite Hr.
  - exact Hact.
  - exact Hdeact.
  - apply activate_text_has_python_dir.
  - now rewrite Hagain.
  - rewrite Hagain; cbn [snd fs].
    rewrite (insert_id _ _ _ Hact). apply insert_id. exact Hdeact.
Qed.

Lemma activation_scripts_overwrite_witness :
  let E := Sample.windows in
  let r := create_activation_scripts E Sample.world in
  fs (snd r) !! activate_bat E
  = Some (File (activate_bat_text (str E (project_root E)) (str E (python_dir E))))
  /\ fs (snd (create_activation_scripts E (snd r))) = fs (snd r).
Proof.
  intros E r.
  destruct (activation_scripts_overwrite E Sample.world) as (_ & H1 & _ & _ & _ & H2);
    [reflexivity | vm_compute; discriminate | vm_compute; discriminate |].
  split; [exact H1 | exact H2].
Defined.

(** C7 as stated fails for the deactivation script: on the sample
    installation the step succeeds and [deactivate_portable.bat] holds its
    fixed text, in which the runtime-directory path does not occur. *)
Lemma deactivate_script_has_no_runtime_path :
  let E := Sample.windows in
  let r := create_activation_scripts E Sample.world in
  fst r = Returned tt
  /\ fs (snd r) !! deactivate_bat E = Some (File deactivate_bat_text)
  /\ ~ occurs_in (str E (python_dir E)) deactivate_bat_text.
Proof.
  intros E r. split; [reflexivity |]. split; [reflexivity |].
  intros H. apply occurs_inb_complete in H. vm_compute in H. discriminate H.
Qed.

(** ** The installer bootstrap *)

Lemma install_pip_absent (E : Env) (w : World) :
  fs w !! pip_script E = None ->
  install_pip E (portable_dir E) (python_dir E) w
  = let w1 := mkWorld (fs w)
                (events w ++ [EvExists (pip_script E);
                              EvPrint "Downloading get-pip.py...";
                              EvUrlretrieve get_pip_url (pip_script E)]) in
    let run (f : gmap Path Node) :=
      let w2 := mkWorld f (events w1 ++ [EvPrint "Installing pip...";
                                         EvRun (bootstrap_argv E)]) in
      match run_process E (bootstrap_argv E) f with
      | Some (_, f') => (Returned tt, mkWorld f' (events w2))
      | None => (Raised (OSError (bootstrap_argv E)), w2)
      end in
    match urlopen E get_pip_url with
    | Body data =>
        match fs_write (pip_script E) data (fs w) with
        | inr f => run f
        | inl e => (Raised e, w1)
        end
    | ShortBody data =>
        match fs_write (pip_script E) data (fs w) with
        | inr f => (Raised (ContentTooShortError get_pip_url), mkWorld f (events w1))
        | inl e => (Raised e, w1)
        end
    | Unreachable => (Raised (URLError get_pip_url), w1)
    end.
Proof.
  intros H. unfold install_pip.
  fold (pip_script E) (python_exe E). fold (bootstrap_argv E).
  unfold_lib. rewrite H. cbn. tidy.
  destruct (urlopen E get_pip_url) as [data | data |]; [| | reflexivity];
    cbn [fs events];
    (destruct (fs_write (pip_script E) data (fs w)) as [e | f]; [reflexivity |]);
    cbn [fs events]; [| reflexivity].
  destruct (run_process E (bootstrap_argv E) f) as [[st f'] |]; now tidy.
Qed.

(** C8: the bootstrap fetches [get-pip.py], from the fixed URL and to the
    fixed path, exactly when nothing is at that path; it fetches nothing
    else.  When something is there the installer is started on the file
    system as it was found, after no other call than the search and the
    progress line.  When nothing is there and the whole body arrives, the
    body is saved as [get-pip.py] and the installer is started on the file
    system that holds it; and the installer is started in no other case of
    a missing [get-pip.py]. *)
Theorem get_pip_fetched_iff_absent (E : Env) (w : World) :
  let r := install_pip E (portable_dir E) (python_dir E) w in
  (In (EvUrlretrieve get_pip_url (pip_script E)) (since w (snd r))
   <-> fs w !! pip_script E = None)
  /\ (forall url dest, In (EvUrlretrieve url dest) (since w (snd r)) ->
        url = get_pip_url /\ dest = pip_script E)
  /\ (forall node, fs w !! pip_script E = Some node ->
        r = match run_process E (bootstrap_argv E) (fs w) with
            | Some (_, f') =>
                (Returned tt,
                 mkWorld f' (events w ++ [EvExists (pip_script E);
                                          EvPrint "Installing pip...";
                                          EvRun (bootstrap_argv E)]))
            | None =>
                (Raised (OSError (bootstrap_argv E)),
                 mkWorld (fs w) (events w ++ [EvExists (pip_script E);
                                              EvPrint "Installing pip...";
                                              EvRun (bootstrap_argv E)]))
            end)
  /\ (forall data,
        fs w !! pip_script E = None ->
        urlopen E get_pip_url = Body data ->
        fs w !! portable_dir E = Some Dir ->
        let saved := <[pip_script E := File data]> (fs w) in
        let calls := [EvExists (pip_script E);
                      EvPrint "Downloading get-pip.py...";
                      EvUrlretrieve get_pip_url (pip_script E);
                      EvPrint "Installing pip...";
                      EvRun (bootstrap_argv E)] in
        r = match run_process E (bootstrap_argv E) saved with
            | Some (_, f') => (Returned tt, mkWorld f' (events w ++ calls))
            | None =>
                (Raised (OSError (bootstrap_argv E)), mkWorld saved (events w ++ calls))
            end)
  /\ (fs w !! pip_script E = None ->
      forall argv, In (EvRun argv) (since w (snd r)) ->
        exists data,
          urlopen E get_pip_url = Body data /\ fs w !! portable_dir E = Some Dir).
Proof.
  intros r.
  assert (Hold :
    (In (EvUrlretrieve get_pip_url (pip_script E)) (since w (snd r))
     <-> fs w !! pip_script E = None)
    /\ (forall url dest, In (EvUrlretrieve url dest) (since w (snd r)) ->
          url = get_pip_url /\ dest = pip_script E)
    /\ (forall node, fs w !! pip_script E = Some node ->
          r = match run_process E (bootstrap_argv E) (fs w) with
              | Some (_, f') =>
                  (Returned tt,
                   mkWorld f' (events w ++ [EvExists (pip_script E);
                                            EvPrint "Installing pip...";
                                            EvRun (bootstrap_argv E)]))
              | None =>
                  (Raised (OSError (bootstrap_argv E)),
                   mkWorld (fs w) (events w ++ [EvExists (pip_script E);
                                                EvPrint "Installing pip...";
                                                EvRun (bootstrap_argv E)]))
              end)).
  { subst r. unfold install_pip.
    fold (pip_script E) (python_exe E). fold (bootstrap_argv E).
    unfold_lib.
    destruct (fs w !! pip_script E) as [node |] eqn:Hlook; cbn.
    - destruct (run_process E (bootstrap_argv E) (fs w)) as [[st f'] |];
        tidy; (split; [split; [cbn; intuition discriminate | discriminate] |]);
        (split; [cbn; intuition discriminate | intros ? _; reflexivity]).
    - repeat case_match; simplify_eq; tidy;
        (split; [split; [reflexivity | cbn; intuition] |]);
        (split; [cbn; intuition congruence | intros ? ?; discriminate]). }
  destruct Hold as (H1 & H2 & H3).
  split; [exact H1 |]. split; [exact H2 |]. split; [exact H3 |]. split.
  - intros data Hnone Hbody Hdir saved calls. subst r saved calls.
    rewrite (install_pip_absent E w Hnone). cbn zeta. rewrite Hbody.
    rewrite fs_write_ok;
      [| unfold pip_script; now rewrite parent_joinpath | congruence].
    cbn [fs events].
    destruct (run_process E (bootstrap_argv E) _) as [[st f'] |]; now tidy.
  - intros Hnone argv. subst r.
    rewrite (install_pip_absent E w Hnone). cbn zeta.
    destruct (urlopen E get_pip_url) as [data | data |] eqn:Hbody.
    + unfold fs_write. rewrite Hnone. unfold pip_script at 1.
      rewrite parent_joinpath.
      destruct (fs w !! portable_dir E) as [[c |] |] eqn:Hdir;
        try (tidy; cbn; intuition discriminate).
      intros _. now exists data.
    + destruct (fs_write (pip_script E) data (fs w)) as [e | f];
        tidy; cbn; intuition discriminate.
    + tidy. cbn. intuition discriminate.
Qed.

Lemma get_pip_fetched_iff_absent_witness :
  let E := Sample.windows in
  let r := install_pip E (portable_dir E) (python_dir E) Sample.world in
  fs Sample.world !! pip_script E = None
  /\ In (EvUrlretrieve get_pip_url (pip_script E)) (since Sample.world (snd r))
  /\ fst r = Returned tt
  /\ fs (snd r) !! pip_script E = Some (File "#!/usr/bin/env python")
  /\ fs (snd r) !! (python_dir E // "pip.exe") = Some (File "MZ")
  /\ since Sample.world (snd r)
     = [EvExists (pip_script E);
        EvPrint "Downloading get-pip.py...";
        EvUrlretrieve get_pip_url (pip_script E);
        EvPrint "Installing pip...";
        EvRun (bootstrap_argv E)].
Proof.
  intros E r.
  destruct (get_pip_fetched_iff_absent E Sample.world)
    as ([_ Hfetch] & _ & _ & Hsaved & _).
  assert (Hnone : fs Sample.world !! pip_script E = None) by (vm_compute; reflexivity).
  specialize (Hsaved "#!/usr/bin/env python" Hnone eq_refl eq_refl).
  cbn zeta in Hsaved.
  split; [exact Hnone |]. split; [exact (Hfetch Hnone) |].
  fold r in Hsaved. rewrite Hsaved.
  split; [reflexivity |]. split; [reflexivity |]. split; [reflexivity |].
  reflexivity.
Defined.

(** ** What a computation adds to the record of events *)

Lemma emits_ret {A : Type} (P : Event -> Prop) (a : A) : emits P (ret a).
Proof. intros w. exists []. simpl. rewrite app_nil_r. auto. Qed.

Lemma emits_raise {A : Type} (P : Event -> Prop) (e : Exn) : emits P (@raise A e).
Proof. intros w. exists []. simpl. rewrite app_nil_r. auto. Qed.

Lemma emits_emit (P : Event -> Prop) (e : Event) : P e -> emits P (emit e).
Proof. intros H w. exists [e]. auto. Qed.

Lemma emits_get_fs (P : Event -> Prop) : emits P get_fs.
Proof. intros w. exists []. simpl. rewrite app_nil_r. auto. Qed.

Lemma emits_put_fs (P : Event -> Prop) (f : gmap Path Node) : emits P (put_fs f).
Proof. intros w. exists []. simpl. rewrite app_nil_r. auto. Qed.

Lemma emits_bind {A B : Type} (P : Event -> Prop) (m : M A) (k : A -> M B) :
  emits P m -> (forall a, emits P (k a)) -> emits P (bind m k).
Proof.
  intros Hm Hk w. unfold bind. destruct (Hm w) as (l & Hl & HP).
  destruct (m w) as [[a | e] w1]; simpl in *.
  - destruct (Hk a w1) as (l' & Hl' & HP'). exists (l ++ l').
    split; [now rewrite Hl', Hl, app_assoc | now apply Forall_app].
  - now exists l.
Qed.

(** Library calls: one event each, whatever happens next. *)
Ltac emits_lib :=
  repeat first
    [ apply emits_bind
    | apply emits_ret | apply emits_raise | apply emits_get_fs
    | apply emits_put_fs
    | apply emits_emit; assumption
    | progress intros
    | match goal with
      | |- emits _ (match ?x with _ => _ end) => destruct x
      | |- emits _ (if ?x then _ else _) => destruct x
      end ].

Lemma emits_print P line : P (EvPrint line) -> emits P (print line).
Proof. apply emits_emit. Qed.

Lemma emits_path_exists P p : P (EvExists p) -> emits P (path_exists p).
Proof. intros H. unfold path_exists. emits_lib. Qed.

Lemma emits_mkdir P p : P (EvMkdir p) -> emits P (mkdir_exist_ok p).
Proof. intros H. unfold mkdir_exist_ok, lift_fs. emits_lib. Qed.

Lemma emits_write_text P p data : P (EvWrite p data) -> emits P (write_text p data).
Proof. intros H. unfold write_text, lift_fs. emits_lib. Qed.

Lemma emits_read_text P E p : P (EvRead p) -> emits P (read_text E p).
Proof. intros H. unfold read_text. emits_lib. Qed.

Lemma emits_unlink P p : P (EvUnlink p) -> emits P (unlink p).
Proof. intros H. unfold unlink. emits_lib. Qed.

Lemma emits_urlretrieve P E url p :
  P (EvUrlretrieve url p) -> emits P (urlretrieve E url p).
Proof. intros H. unfold urlretrieve, lift_fs. emits_lib. Qed.

Lemma emits_extractall P E z d : P (EvExtractall z d) -> emits P (extractall E z d).
Proof. intros H. unfold extractall, lift_fs. emits_lib. Qed.

Lemma emits_subprocess_run P E argv : P (EvRun argv) -> emits P (subprocess_run E argv).
Proof. intros H. unfold subprocess_run. emits_lib. Qed.

(** The script's own functions: [side] settles what is asked of each event. *)
Ltac emits_script side :=
  repeat first
    [ assumption
    | apply emits_ret | apply emits_raise
    | apply emits_print; side
    | apply emits_emit; side
    | apply emits_path_exists; side
    | apply emits_mkdir; side
    | apply emits_write_text; side
    | apply emits_read_text; side
    | apply emits_unlink; side
    | apply emits_urlretrieve; side
    | apply emits_extractall; side
    | apply emits_subprocess_run; side
    | apply emits_bind
    | progress intros
    | progress cbv zeta
    | match goal with
      | |- emits _ (match ?x with _ => _ end) => destruct x
      | |- emits _ (if ?x then _ else _) => destruct x
      end ].

Lemma extends_create_activation_scripts E :
  emits (fun _ => True) (create_activation_scripts E).
Proof. unfold create_activation_scripts. emits_script ltac:(exact I). Qed.

Lemma extends_configure_pth E prefix dir :
  emits (fun _ => True) (configure_pth E prefix dir).
Proof. unfold configure_pth. emits_script ltac:(exact I). Qed.

Lemma extends_install_pip E a b : emits (fun _ => True) (install_pip E a b).
Proof. unfold install_pip. emits_script ltac:(exact I). Qed.

Lemma extends_fetch_runtime E url a b :
  emits (fun _ => True) (fetch_runtime E url a b).
Proof.
  unfold fetch_runtime, download_file, extract_zip. emits_script ltac:(exact I).
Qed.

Lemma extends_install_requirements E a b :
  emits (fun _ => True) (install_requirements E a b).
Proof.
  pose proof (extends_create_activation_scripts E).
  unfold install_requirements. emits_script ltac:(exact I).
Qed.

(** ** Making the directories *)

Lemma fs_mkdir_inr (p : Path) (f f' : gmap Path Node) :
  fs_mkdir p f = inr f' -> f' = <[p := Dir]> f.
Proof.
  unfold fs_mkdir. intros H.
  destruct (f !! p) as [[c |] |] eqn:Hp; try discriminate.
  - injection H as <-. symmetry. now apply insert_id.
  - destruct (f !! parent p) as [[c |] |]; try discriminate. now injection H.
Qed.

Lemma fs_mkdir_can (p : Path) (f : gmap Path Node) :
  f !! p = Some Dir \/ (f !! p = None /\ f !! parent p = Some Dir) ->
  fs_mkdir p f = inr (<[p := Dir]> f).
Proof.
  unfold fs_mkdir. intros [H | [H Hpar]]; rewrite H.
  - now rewrite insert_id.
  - now rewrite Hpar.
Qed.

Lemma mkdir_exist_ok_run (p : Path) (w : World) :
  mkdir_exist_ok p w
  = match fs_mkdir p (fs w) with
    | inr f' => (Returned tt, mkWorld f' (events w ++ [EvMkdir p]))
    | inl e => (Raised e, mkWorld (fs w) (events w ++ [EvMkdir p]))
    end.
Proof. unfold_lib. now destruct (fs_mkdir p (fs w)). Qed.

Lemma dirs_differ (E : Env) : portable_dir E <> python_dir E.
Proof. path_neq. Qed.

Lemma make_directories_run (E : Env) (w : World) :
  match make_directories (portable_dir E) (python_dir E) w with
  | (Returned _, w1) =>
      fs w1 = <[python_dir E := Dir]> (<[portable_dir E := Dir]> (fs w))
      /\ events w1 = events w ++ [EvMkdir (portable_dir E); EvMkdir (python_dir E)]
  | (Raised _, w1) =>
      (fs w1 = fs w \/ fs w1 = <[portable_dir E := Dir]> (fs w))
      /\ (events w1 = events w ++ [EvMkdir (portable_dir E)]
          \/ events w1 = events w ++ [EvMkdir (portable_dir E); EvMkdir (python_dir E)])
  end.
Proof.
  unfold make_directories, bind. rewrite mkdir_exist_ok_run.
  destruct (fs_mkdir (portable_dir E) (fs w)) as [e | f1] eqn:H1.
  - cbn. auto.
  - apply fs_mkdir_inr in H1. subst f1. rewrite mkdir_exist_ok_run. cbn [fs events].
    destruct (fs_mkdir (python_dir E) _) as [e | f2] eqn:H2; tidy.
    + auto.
    + apply fs_mkdir_inr in H2. now subst f2.
Qed.

Lemma parent_portable_dir (E : Env) : parent (portable_dir E) = project_root E.
Proof. apply parent_joinpath. Qed.

Lemma parent_python_dir (E : Env) : parent (python_dir E) = portable_dir E.
Proof. apply parent_joinpath. Qed.

Lemma make_directories_ok (E : Env) (w : World) :
  directories_can_be_made E (fs w) ->
  make_directories (portable_dir E) (python_dir E) w
  = (Returned tt,
     mkWorld (<[python_dir E := Dir]> (<[portable_dir E := Dir]> (fs w)))
             (events w ++ [EvMkdir (portable_dir E); EvMkdir (python_dir E)])).
Proof.
  intros [Hp Hy]. unfold make_directories, bind.
  rewrite mkdir_exist_ok_run, fs_mkdir_can.
  - rewrite mkdir_exist_ok_run. cbn [fs events]. rewrite fs_mkdir_can.
    + now tidy.
    + rewrite lookup_insert_ne by apply dirs_differ.
      rewrite parent_python_dir, lookup_insert_eq.
      destruct Hy as [Hy | Hy]; auto.
  - rewrite parent_portable_dir. exact Hp.
Qed.

Lemma dirs_exist_after (E : Env) (f : gmap Path Node) :
  let f' := <[python_dir E := Dir]> (<[portable_dir E := Dir]> f) in
  f' !! portable_dir E = Some Dir /\ f' !! python_dir E = Some Dir.
Proof.
  split.
  - rewrite lookup_insert_ne by (intros H; now apply (dirs_differ E)).
    apply lookup_insert_eq.
  - apply lookup_insert_eq.
Qed.

(** ** The workflow around platform resolution *)

Lemma get_python_download_url_unsupported (E : Env) (w : World) :
  ~ supported E ->
  get_python_download_url E w
  = (Returned None,
     mkWorld (fs w) (events w ++ [EvPlatform "system"; EvPlatform "machine"])).
Proof.
  unfold supported, get_python_download_url. intros Hw. unfold_lib.
  apply String.eqb_neq in Hw. rewrite Hw. tidy.
  now repeat case_match.
Qed.

Lemma get_python_download_url_supported (E : Env) (w : World) :
  supported E ->
  get_python_download_url E w
  = (Returned (Some (if is_64bit E then python_url_amd64 else python_url_win32)),
     mkWorld (fs w) (events w ++ [EvPlatform "system"; EvPlatform "machine"])).
Proof.
  unfold supported, get_python_download_url, is_64bit. intros Hw. unfold_lib.
  apply String.eqb_eq in Hw. rewrite Hw. tidy.
  now case_match.
Qed.

(** The script up to the point where the directories have been made. *)
Lemma setup_after_banner (E : Env) (prefix : string) (w : World) :
  setup_portable_python E prefix w
  = match make_directories (portable_dir E) (python_dir E)
            (mkWorld (fs w) (events w ++ [banner E])) with
    | (Returned _, w1) =>
        (python_url <- get_python_download_url E ;;
         match python_url with
         | Some (String _ _ as url) =>
             fetch_runtime E url (portable_dir E) (python_dir E) ;;
             configure_pth E prefix (python_dir E) ;;
             install_pip E (portable_dir E) (python_dir E) ;;
             install_requirements E (project_root E) (python_dir E)
         | _ =>
             print "Could not determine Python download URL for your system." ;;
             print "Please install Python 3.10 manually in the portable_python/python directory." ;;
             ret false
         end) w1
    | (Raised e, w1) => (Raised e, w1)
    end.
Proof.
  unfold setup_portable_python.
  fold (portable_dir E). fold (python_dir E).
  unfold bind at 1. unfold print, emit at 1. fold (banner E).
  unfold bind at 1.
  now destruct (make_directories _ _ _) as [[[] | e] w1].
Qed.

Lemma setup_unsupported (E : Env) (prefix : string) (w : World) :
  ~ supported E ->
  setup_portable_python E prefix w
  = match make_directories (portable_dir E) (python_dir E)
            (mkWorld (fs w) (events w ++ [banner E])) with
    | (Returned _, w1) => (Returned false, mkWorld (fs w1) (events w1 ++ diagnostics))
    | (Raised e, w1) => (Raised e, w1)
    end.
Proof.
  intros Hu. rewrite setup_after_banner.
  destruct (make_directories _ _ _) as [[[] | e] w1]; [| reflexivity].
  unfold bind at 1. rewrite get_python_download_url_unsupported by assumption.
  unfold_lib. now tidy.
Qed.

Lemma since_events (w w' : World) (l : list Event) :
  events w' = events w ++ l -> since w w' = l.
Proof. intros H. unfold since. rewrite H. apply drop_app_length. Qed.

Lemma lookup_after_directories (E : Env) (f : gmap Path Node) (p : Path) :
  let f' := <[python_dir E := Dir]> (<[portable_dir E := Dir]> f) in
  f' !! p = f !! p \/ f' !! p = Some Dir.
Proof.
  cbn zeta. destruct (decide (python_dir E = p)) as [<- | Hy].
  - right. apply lookup_insert_eq.
  - rewrite lookup_insert_ne by assumption.
    destruct (decide (portable_dir E = p)) as [<- | Hp].
    + right. apply lookup_insert_eq.
    + left. now apply lookup_insert_ne.
Qed.

(** C4: on an unsupported platform the run makes no call beyond printing,
    making the two directories and asking for the platform; it changes the
    file system by at most those directories and never returns the success
    flag; and when the directories are there or can be made it prints the
    two-line diagnostic and returns the failure flag. *)
Theorem unsupported_platform_aborts (E : Env) (prefix : string) (w : World) :
  ~ supported E ->
  let r := setup_portable_python E prefix w in
  Forall (fun e => provisioning e = false) (since w (snd r))
  /\ (forall p, fs (snd r) !! p = fs w !! p \/ fs (snd r) !! p = Some Dir)
  /\ fst r <> Returned true
  /\ (directories_can_be_made E (fs w) ->
      r = (Returned false,
           mkWorld (<[python_dir E := Dir]> (<[portable_dir E := Dir]> (fs w)))
                   (events w ++ [banner E; EvMkdir (portable_dir E);
                                 EvMkdir (python_dir E)] ++ diagnostics))).
Proof.
  intros Hu r. subst r. rewrite setup_unsupported by assumption.
  split; [| split; [| split]].
  - pose proof (make_directories_run E (mkWorld (fs w) (events w ++ [banner E]))) as Hrun.
    destruct (make_directories _ _ _) as [[[] | e] w1]; cbn [fs events fst snd] in *.
    + destruct Hrun as [_ Hev].
      erewrite since_events
        by (cbn [events]; rewrite Hev, <- !app_assoc; reflexivity).
      repeat constructor.
    + destruct Hrun as [_ [Hev | Hev]];
        (erewrite since_events by (rewrite Hev, <- !app_assoc; reflexivity));
        repeat constructor.
  - intros p.
    pose proof (make_directories_run E (mkWorld (fs w) (events w ++ [banner E]))) as Hrun.
    destruct (make_directories _ _ _) as [[[] | e] w1]; cbn [fs events fst snd] in *.
    + destruct Hrun as [-> _]. apply lookup_after_directories.
    + destruct Hrun as [[-> | ->] _]; [now left |].
      destruct (decide (portable_dir E = p)) as [<- | Hp].
      * right. apply lookup_insert_eq.
      * left. now apply lookup_insert_ne.
  - now destruct (make_directories _ _ _) as [[[] | e] w1].
  - intros Hcan. rewrite make_directories_ok by assumption.
    cbn [fs events]. now rewrite <- !app_assoc.
Qed.

Lemma unsupported_platform_aborts_witness :
  fst (setup_portable_python Sample.linux Sample.prefix Sample.linux_world)
  = Returned false
  /\ Forall (fun e => provisioning e = false)
       (since Sample.linux_world
          (snd (setup_portable_python Sample.linux Sample.prefix Sample.linux_world))).
Proof.
  assert (Hu : ~ supported Sample.linux) by (vm_compute; discriminate).
  destruct (unsupported_platform_aborts Sample.linux Sample.prefix
              Sample.linux_world Hu) as (Hquiet & _ & _ & Hret).
  split; [| exact Hquiet].
  rewrite Hret; [reflexivity |].
  split; [left; reflexivity | right; reflexivity].
Defined.

Lemma get_python_download_url_events (E : Env) (w : World) :
  exists u,
    get_python_download_url E w
    = (Returned u,
       mkWorld (fs w) (events w ++ [EvPlatform "system"; EvPlatform "machine"])).
Proof.
  unfold get_python_download_url. unfold_lib. tidy.
  repeat case_match; eauto.
Qed.

Lemma extends_after_url (E : Env) (prefix : string) (u : option string) :
  emits (fun _ => True)
    match u with
    | Some (String _ _ as url) =>
        fetch_runtime E url (portable_dir E) (python_dir E) ;;
        configure_pth E prefix (python_dir E) ;;
        install_pip E (portable_dir E) (python_dir E) ;;
        install_requirements E (project_root E) (python_dir E)
    | _ =>
        print "Could not determine Python download URL for your system." ;;
        print "Please install Python 3.10 manually in the portable_python/python directory." ;;
        ret false
    end.
Proof.
  pose proof (extends_install_requirements E (project_root E) (python_dir E)).
  pose proof (extends_install_pip E (portable_dir E) (python_dir E)).
  pose proof (extends_configure_pth E prefix (python_dir E)).
  destruct u as [[| c url] |];
    try pose proof (extends_fetch_runtime E (String c url) (portable_dir E) (python_dir E));
    emits_script ltac:(exact I).
Qed.

(** C9: in every run the platform is asked only after both directories
    have been made: whenever a platform call is on record, making the
    directories had returned, both existed at that moment, and the record
    shows the two [mkdir] calls before the first platform call.  Hence on an
    unsupported platform a run that returns the failure flag leaves both on
    disk, and it does return it whenever the directories can be made. *)
Theorem directories_made_before_platform (E : Env) (prefix : string) (w : World) :
  let r := setup_portable_python E prefix w in
  (forall a, In (EvPlatform a) (since w (snd r)) ->
     exists w1 rest,
       make_directories (portable_dir E) (python_dir E)
         (mkWorld (fs w) (events w ++ [banner E])) = (Returned tt, w1)
       /\ fs w1 !! portable_dir E = Some Dir
       /\ fs w1 !! python_dir E = Some Dir
       /\ since w (snd r)
          = [banner E; EvMkdir (portable_dir E); EvMkdir (python_dir E);
             EvPlatform "system"] ++ rest)
  /\ (~ supported E -> fst r = Returned false ->
      fs (snd r) !! portable_dir E = Some Dir
      /\ fs (snd r) !! python_dir E = Some Dir)
  /\ (~ supported E -> directories_can_be_made E (fs w) -> fst r = Returned false).
Proof.
  intros r. subst r. split; [| split].
  - intros a. rewrite setup_after_banner.
    pose proof (make_directories_run E (mkWorld (fs w) (events w ++ [banner E]))) as Hrun.
    destruct (make_directories _ _ _) as [[[] | e] w1]; cbn [fs events fst snd] in *.
    + destruct Hrun as [Hfs Hev]. intros _.
      destruct (get_python_download_url_events E w1) as [u Hu].
      unfold bind at 1. rewrite Hu. cbv beta.
      destruct (extends_after_url E prefix u
                  (mkWorld (fs w1) (events w1 ++ [EvPlatform "system"; EvPlatform "machine"])))
        as (l & Hl & _).
      exists w1, (EvPlatform "machine" :: l).
      split; [reflexivity |].
      split; [rewrite Hfs; apply dirs_exist_after |].
      split; [rewrite Hfs; apply dirs_exist_after |].
      apply since_events. rewrite Hl. cbn [events]. rewrite Hev.
      now rewrite <- !app_assoc.
    + destruct Hrun as [_ [Hev | Hev]];
        (erewrite since_events by (rewrite Hev, <- !app_assoc; reflexivity));
        cbn; intuition discriminate.
  - intros Hu. rewrite setup_unsupported by assumption.
    pose proof (make_directories_run E (mkWorld (fs w) (events w ++ [banner E]))) as Hrun.
    destruct (make_directories _ _ _) as [[[] | e] w1]; cbn [fs events fst snd] in *;
      [| discriminate].
    intros _. destruct Hrun as [-> _]. apply dirs_exist_after.
  - intros Hu Hcan. rewrite setup_unsupported by assumption.
    now rewrite make_directories_ok.
Qed.

Lemma directories_made_before_platform_witness :
  let r := setup_portable_python Sample.linux Sample.prefix Sample.linux_world in
  fst r = Returned false
  /\ fs (snd r) !! portable_dir Sample.linux = Some Dir
  /\ fs (snd r) !! python_dir Sample.linux = Some Dir.
Proof.
  destruct (directories_made_before_platform Sample.linux Sample.prefix
              Sample.linux_world) as (_ & Hdirs & Hret).
  assert (Hu : ~ supported Sample.linux) by (vm_compute; discriminate).
  assert (Hcan : directories_can_be_made Sample.linux (fs Sample.linux_world))
    by (split; [left; reflexivity | right; reflexivity]).
  pose proof (Hret Hu Hcan) as Hfalse.
  split; [exact Hfalse | exact (Hdirs Hu Hfalse)].
Defined.

(** ** Exit statuses *)

Lemma bind_cong {A B : Type} (m1 m2 : M A) (k1 k2 : A -> M B) (w : World) :
  m1 w = m2 w -> (forall a w', k1 a w' = k2 a w') ->
  bind m1 k1 w = bind m2 k2 w.
Proof.
  intros Hm Hk. unfold bind. rewrite Hm.
  destruct (m2 w) as [[a | e] w']; [apply Hk | reflexivity].
Qed.

Lemma subprocess_run_status {B : Type} (st : list string -> gmap Path Node -> Z)
  (E : Env) (argv : list string) (k : M B) (w : World) :
  (subprocess_run (with_status st E) argv ;; k) w = (subprocess_run E argv ;; k) w.
Proof.
  unfold_lib. unfold with_status; cbn [run_process].
  now destruct (run_process E argv (fs w)) as [[s f'] |].
Qed.

Lemma install_pip_status st (E : Env) (a b : Path) (w : World) :
  install_pip (with_status st E) a b w = install_pip E a b w.
Proof.
  unfold install_pip.
  apply bind_cong; [reflexivity | intros present w1].
  apply bind_cong; [reflexivity | intros _ w2].
  apply bind_cong; [reflexivity | intros _ w3].
  apply (subprocess_run_status st E).
Qed.

Lemma install_requirements_status st (E : Env) (a b : Path) (w : World) :
  install_requirements (with_status st E) a b w = install_requirements E a b w.
Proof.
  unfold install_requirements.
  apply bind_cong; [reflexivity | intros present w1].
  destruct present; [| reflexivity].
  apply bind_cong; [reflexivity | intros _ w2].
  apply (subprocess_run_status st E).
Qed.

Lemma setup_status (st : list string -> gmap Path Node -> Z)
  (E : Env) (prefix : string) (w : World) :
  setup_portable_python (with_status st E) prefix w
  = setup_portable_python E prefix w.
Proof.
  unfold setup_portable_python.
  apply bind_cong; [reflexivity | intros _ w1].
  apply bind_cong; [reflexivity | intros _ w2].
  apply bind_cong; [reflexivity | intros python_url w3].
  destruct python_url as [[| c url] |]; try reflexivity.
  apply bind_cong; [reflexivity | intros _ w4].
  apply bind_cong; [reflexivity | intros _ w5].
  apply bind_cong; [apply install_pip_status | intros _ w6].
  apply install_requirements_status.
Qed.

(** ** Unpacking, step by step *)

(** What a change that may stop half-way leaves absent, and leaves as it
    is. *)
Lemma fs_steps_invariant (I : gmap Path Node -> Prop) (ops : list fs_partial) :
  Forall (fun op : fs_partial => forall f, I f -> I (snd (op f))) ops ->
  forall f, I f -> I (snd (fs_steps ops f)).
Proof.
  induction 1 as [| op ops Hop _ IH]; intros f HI; simpl; [assumption |].
  specialize (Hop f HI). destruct (op f) as [[e |] f1]; simpl in *; auto.
Qed.

Lemma fs_steps_app (ops1 ops2 : list fs_partial) (f : gmap Path Node) :
  fs_steps (ops1 ++ ops2) f
  = match fs_steps ops1 f with
    | (None, f1) => fs_steps ops2 f1
    | (Some e, f1) => (Some e, f1)
    end.
Proof.
  revert f. induction ops1 as [| op ops1 IH]; intros f; simpl; [reflexivity |].
  destruct (op f) as [[e |] f1]; [reflexivity | apply IH].
Qed.

Lemma os_mkdir_inr (p : Path) (f f' : gmap Path Node) :
  os_mkdir p f = inr f' -> f !! p = None /\ f' = <[p := Dir]> f.
Proof.
  unfold os_mkdir. intros H.
  destruct (f !! p) eqn:Hp; [discriminate |].
  destruct (f !! parent p) as [[c |] |]; try discriminate.
  injection H as <-. auto.
Qed.

Lemma fs_write_inr (p : Path) (data : string) (f f' : gmap Path Node) :
  fs_write p data f = inr f' -> f' = <[p := File data]> f.
Proof. unfold fs_write. intros H. now repeat case_match; simplify_eq. Qed.

Lemma fs_write_not_dir (p : Path) (data : string) (f f' : gmap Path Node) :
  fs_write p data f = inr f' -> f !! p <> Some Dir.
Proof. unfold fs_write. intros H Hd. rewrite Hd in H. discriminate. Qed.

Lemma fs_mkdir_cases (p : Path) (f f' : gmap Path Node) :
  fs_mkdir p f = inr f' -> f' = f \/ (f !! p = None /\ f' = <[p := Dir]> f).
Proof.
  unfold fs_mkdir. intros H.
  destruct (f !! p) as [[c |] |] eqn:Hp; try discriminate.
  - left. now injection H.
  - destruct (f !! parent p) as [[c |] |]; try discriminate.
    right. now injection H.
Qed.

Lemma missing_true (f : gmap Path Node) (p : Path) :
  missing f p = true -> f !! p = None.
Proof. unfold missing. now destruct (f !! p). Qed.

Lemma missing_false (f : gmap Path Node) (p : Path) :
  missing f p = false -> f !! p <> None.
Proof. unfold missing. now destruct (f !! p). Qed.

Lemma fs_try_invariant (I : gmap Path Node -> Prop)
  (op : gmap Path Node -> Exn + gmap Path Node) (f : gmap Path Node) :
  (forall f', op f = inr f' -> I f') -> I f -> I (snd (fs_try op f)).
Proof.
  intros Hop HI. unfold fs_try. destruct (op f) as [e | f'] eqn:H; simpl; auto.
Qed.

Lemma prefix_snoc_inv (p head : Path) (tail : string) :
  p `prefix_of` head ++ [tail] -> p = head ++ [tail] \/ p `prefix_of` head.
Proof.
  intros [k Hk]. destruct (rev k) as [| c k'] eqn:Hrev.
  - left. apply (f_equal (@rev string)) in Hrev. rewrite rev_involutive in Hrev.
    subst k. simpl in Hk. now rewrite app_nil_r in Hk.
  - right. apply (f_equal (@rev string)) in Hrev. rewrite rev_involutive in Hrev.
    simpl in Hrev. subst k. rewrite app_assoc in Hk.
    apply app_inj_tail in Hk. destruct Hk as [-> _]. now exists (rev k').
Qed.

(** [os.makedirs] makes directories only: at missing paths that lead to
    [name], with nothing between them and [name] when it began. *)
Lemma makedirs_from_invariant (I : gmap Path Node -> Prop)
  (rev_name : list string) (f0 : gmap Path Node) :
  f0 !! rev rev_name = None ->
  (forall (p : Path) (f : gmap Path Node),
      p `prefix_of` rev rev_name ->
      (forall p' : Path, p `prefix_of` p' -> p' `prefix_of` rev rev_name -> f0 !! p' = None) ->
      f !! p = None -> I f -> I (<[p := Dir]> f)) ->
  I f0 -> I (snd (makedirs_from rev_name f0)).
Proof.
  revert I. induction rev_name as [| tail rev_head IH]; intros I Hname Hins HI.
  - cbn [makedirs_from]. apply fs_try_invariant; [| assumption].
    intros f' H. apply os_mkdir_inr in H. destruct H as [Hp ->].
    apply Hins; [reflexivity | | assumption | assumption].
    intros p' H1 H2. apply prefix_nil_inv in H2. now subst p'.
  - cbn [makedirs_from]. cbn zeta.
    assert (Hmk : forall f1, I f1 ->
              I (snd (fs_try (os_mkdir (rev (tail :: rev_head))) f1))).
    { intros f1 H1. apply fs_try_invariant; [| assumption].
      intros f' H. apply os_mkdir_inr in H. destruct H as [Hp ->].
      apply Hins; [reflexivity | | assumption | assumption].
      intros p' H2 H3. assert (p' = rev (tail :: rev_head)) as ->; [| assumption].
      apply (anti_symm prefix); assumption. }
    assert (Habove :
      I (snd (match rev_head with
              | [] => (None, f0)
              | _ => if missing f0 (rev rev_head)
                     then makedirs_from rev_head f0 else (None, f0)
              end))).
    { destruct rev_head as [| c rest]; [assumption |].
      destruct (missing f0 (rev (c :: rest))) eqn:Hmiss; [| assumption].
      apply missing_true in Hmiss.
      apply IH; [assumption | | assumption].
      intros p f Hp Hbetween Hf HIf.
      apply Hins; [| | assumption | assumption].
      - etrans; [exact Hp |]. cbn [rev]. now apply prefix_app_r.
      - intros p' H1 H2. change (rev (tail :: c :: rest))
          with (rev (c :: rest) ++ [tail]) in H2.
        apply prefix_snoc_inv in H2. destruct H2 as [-> | H2]; [assumption |].
        now apply Hbetween. }
    destruct (match rev_head with
              | [] => (None, f0)
              | _ => if missing f0 (rev rev_head)
                     then makedirs_from rev_head f0 else (None, f0)
              end) as [[e |] f1]; cbn [snd] in Habove.
    + destruct e; try assumption. now apply Hmk.
    + now apply Hmk.
Qed.

Lemma makedirs_invariant (I : gmap Path Node -> Prop) (name : Path)
  (f0 : gmap Path Node) :
  f0 !! name = None ->
  (forall (p : Path) (f : gmap Path Node),
      p `prefix_of` name ->
      (forall p' : Path, p `prefix_of` p' -> p' `prefix_of` name -> f0 !! p' = None) ->
      f !! p = None -> I f -> I (<[p := Dir]> f)) ->
  I f0 -> I (snd (makedirs name f0)).
Proof.
  intros Hname Hins HI. unfold makedirs.
  apply makedirs_from_invariant; rewrite ?rev_involutive; assumption.
Qed.

Lemma prefix_of_parent (p : Path) : parent p `prefix_of` p.
Proof.
  unfold parent. destruct (rev p) as [| c k] eqn:Hrev.
  - apply (f_equal (@rev string)) in Hrev. rewrite rev_involutive in Hrev.
    subst p. reflexivity.
  - apply (f_equal (@rev string)) in Hrev. rewrite rev_involutive in Hrev.
    simpl in Hrev. subst p. rewrite removelast_last. now apply prefix_app_r.
Qed.

(** One member: directories are made at missing paths above the target,
    below everything that leads to the target and was there; then the
    target is made a directory if nothing is there, or written as a file
    unless a directory is there. *)
Lemma fs_extract_member_invariant (I : gmap Path Node -> Prop)
  (d rel : Path) (entry : Entry) (f0 : gmap Path Node) :
  (forall (p : Path) (f : gmap Path Node),
      p `prefix_of` parent (d ++ rel) ->
      (forall p' : Path, p `prefix_of` p' -> p' `prefix_of` parent (d ++ rel) ->
                  f0 !! p' = None) ->
      f !! p = None -> I f -> I (<[p := Dir]> f)) ->
  (forall f : gmap Path Node, entry = DirEntry -> f !! (d ++ rel) = None -> I f ->
             I (<[d ++ rel := Dir]> f)) ->
  (forall data (f : gmap Path Node), entry = FileEntry data -> f !! (d ++ rel) <> Some Dir -> I f ->
                  I (<[d ++ rel := File data]> f)) ->
  I f0 -> I (snd (fs_extract_member d (rel, entry) f0)).
Proof.
  intros Habove Hdir Hfile HI. unfold fs_extract_member. cbn [fst snd fs_steps].
  assert (H1 :
    I (snd (match parent (d ++ rel) with
            | [] => (None, f0)
            | _ => if missing f0 (parent (d ++ rel))
                   then makedirs (parent (d ++ rel)) f0 else (None, f0)
            end))).
  { destruct (parent (d ++ rel)) as [| c rest] eqn:Hup; [assumption |].
    destruct (missing f0 (c :: rest)) eqn:Hmiss; [| assumption].
    apply missing_true in Hmiss. now apply makedirs_invariant. }
  destruct (match parent (d ++ rel) with
            | [] => (None, f0)
            | _ => if missing f0 (parent (d ++ rel))
                   then makedirs (parent (d ++ rel)) f0 else (None, f0)
            end) as [[e |] f1]; cbn [snd] in H1; [assumption |].
  destruct entry as [data |].
  - assert (H2 : I (snd (fs_try (fs_write (d ++ rel) data) f1))).
    { apply fs_try_invariant; [| assumption]. intros f' H.
      rewrite (fs_write_inr _ _ _ _ H).
      apply (Hfile data); [reflexivity | | assumption].
      now apply (fs_write_not_dir _ data f1 f'). }
    now destruct (fs_try _ _) as [[e |] f2].
  - assert (H2 : I (snd (fs_try (fs_mkdir (d ++ rel)) f1))).
    { apply fs_try_invariant; [| assumption]. intros f' H.
      apply fs_mkdir_cases in H. destruct H as [-> | [Hp ->]]; [assumption |].
      now apply Hdir. }
    now destruct (fs_try _ _) as [[e |] f2].
Qed.

Lemma fs_extract_members_invariant (I : gmap Path Node -> Prop) (d : Path)
  (members : list (Path * Entry)) :
  (forall member f0, In member members -> I f0 ->
                     I (snd (fs_extract_member d member f0))) ->
  forall f, I f -> I (snd (fs_steps (map (fs_extract_member d) members) f)).
Proof.
  intros H. apply fs_steps_invariant. apply Forall_map, List.Forall_forall.
  intros member Hin f. now apply H.
Qed.

Lemma leads_to_target (d rel p : Path) :
  p `prefix_of` parent (d ++ rel) -> p `prefix_of` d ++ rel.
Proof. intros H. etrans; [exact H | apply prefix_of_parent]. Qed.

Lemma above_or_below (d rel p : Path) :
  p `prefix_of` d ++ rel -> p `prefix_of` d \/ d `prefix_of` p.
Proof.
  intros H. apply (prefix_weak_total p d (d ++ rel)); [assumption |].
  now apply prefix_app_r.
Qed.

(** Unpacking changes a path outside the target directory in one way only:
    a missing directory above the target is made. *)
Lemma fs_extract_members_outside (q d : Path) (members : list (Path * Entry))
  (f : gmap Path Node) :
  ~ d `prefix_of` q ->
  let f' := snd (fs_steps (map (fs_extract_member d) members) f) in
  f' !! q = f !! q \/ (q `prefix_of` d /\ f !! q = None /\ f' !! q = Some Dir).
Proof.
  intros Hq. cbn zeta.
  apply (fs_extract_members_invariant
           (fun g => g !! q = f !! q
                     \/ (q `prefix_of` d /\ f !! q = None /\ g !! q = Some Dir)));
    [| now left].
  intros [rel entry] f0 _ HI.
  assert (Htarget : forall (x : Node) (g : gmap Path Node),
             g !! q = f !! q
             \/ (q `prefix_of` d /\ f !! q = None /\ g !! q = Some Dir) ->
             <[d ++ rel := x]> g !! q = f !! q
             \/ (q `prefix_of` d /\ f !! q = None
                 /\ <[d ++ rel := x]> g !! q = Some Dir)).
  { intros x g Hg. rewrite lookup_insert_ne; [assumption |].
    intros <-. apply Hq. now apply prefix_app_r. }
  apply fs_extract_member_invariant; [| | | assumption].
  - intros p g Hp _ Hmiss Hg. destruct (decide (p = q)) as [-> | Hne].
    + right. rewrite lookup_insert_eq.
      destruct (above_or_below d rel q (leads_to_target _ _ _ Hp)) as [Hab | Hbe];
        [| contradiction].
      destruct Hg as [Hg | (_ & _ & Hg)]; [| congruence].
      split; [assumption |]. split; [congruence | reflexivity].
    + now rewrite lookup_insert_ne.
  - intros g _ _ Hg. now apply Htarget.
  - intros data g _ _ Hg. now apply Htarget.
Qed.

(** A path that neither leads to the target directory nor lies in it is
    left as it is. *)
Lemma fs_extract_members_unrelated (q d : Path) (members : list (Path * Entry))
  (f : gmap Path Node) :
  ~ d `prefix_of` q -> ~ q `prefix_of` d ->
  snd (fs_steps (map (fs_extract_member d) members) f) !! q = f !! q.
Proof.
  intros Hq Hq'.
  destruct (fs_extract_members_outside q d members f Hq) as [H | [H _]];
    [assumption | contradiction].
Qed.

Lemma target_leads_to_upper (d rel : Path) :
  rel <> [] -> d `prefix_of` parent (d ++ rel).
Proof.
  intros Hrel. destruct (rev rel) as [| c k] eqn:Hrev.
  - apply (f_equal (@rev string)) in Hrev. rewrite rev_involutive in Hrev.
    now subst rel.
  - apply (f_equal (@rev string)) in Hrev. rewrite rev_involutive in Hrev.
    simpl in Hrev. subst rel. rewrite app_assoc. unfold parent.
    rewrite removelast_last. now apply prefix_app_r.
Qed.

(** With the target directory and the directory above it there, nothing
    outside the target directory changes. *)
Lemma fs_extract_members_inside (q d : Path) (members : list (Path * Entry))
  (f : gmap Path Node) :
  f !! d <> None -> f !! parent d <> None ->
  ~ d `prefix_of` q ->
  snd (fs_steps (map (fs_extract_member d) members) f) !! q = f !! q.
Proof.
  intros Hd Hpd Hq.
  assert (Hins : forall p (x : Node) (g : gmap Path Node) r,
             g !! r <> None -> <[p := x]> g !! r <> None).
  { intros p x g r Hr. destruct (decide (p = r)) as [-> | Hne].
    - now rewrite lookup_insert_eq.
    - now rewrite lookup_insert_ne. }
  apply (fs_extract_members_invariant
           (fun g => g !! d <> None /\ g !! parent d <> None /\ g !! q = f !! q));
    [| auto].
  intros [rel entry] f0 _ (H1 & H2 & H3).
  assert (Htarget : forall (x : Node) (g : gmap Path Node),
             g !! d <> None /\ g !! parent d <> None /\ g !! q = f !! q ->
             <[d ++ rel := x]> g !! d <> None
             /\ <[d ++ rel := x]> g !! parent d <> None
             /\ <[d ++ rel := x]> g !! q = f !! q).
  { intros x g (G1 & G2 & G3). split; [now apply Hins |].
    split; [now apply Hins |]. rewrite lookup_insert_ne; [assumption |].
    intros <-. apply Hq. now apply prefix_app_r. }
  apply fs_extract_member_invariant; [| | | auto].
  - intros p g Hp Hbetween Hmiss (G1 & G2 & G3).
    split; [now apply Hins |]. split; [now apply Hins |].
    rewrite lookup_insert_ne; [assumption |]. intros ->.
    destruct (above_or_below d rel q (leads_to_target _ _ _ Hp)) as [Hab | Hbe];
      [| contradiction].
    destruct rel as [| c rel'].
    + rewrite app_nil_r in Hbetween, Hp.
      apply H2. now apply Hbetween.
    + apply H1. apply Hbetween; [assumption |].
      now apply target_leads_to_upper.
  - intros g _ _ Hg. now apply Htarget.
  - intros data g _ _ Hg. now apply Htarget.
Qed.

Ltac clash :=
  let H := fresh in
  intros H; first [rewrite H in * | subst];
  match goal with
  | Hn : _ = None, Hs : _ = Some _ |- _ =>
      discriminate (eq_trans (eq_sym Hn) Hs)
  | Hn : _ <> Some Dir, Hs : _ = Some Dir |- _ => exact (Hn Hs)
  end.

(** What is there stays there, and stays of its kind. *)
Lemma fs_extract_member_keeps_file (p d : Path) (member : Path * Entry)
  (f : gmap Path Node) :
  is_file f p -> is_file (snd (fs_extract_member d member f)) p.
Proof.
  destruct member as [rel entry].
  apply (fs_extract_member_invariant (fun g => is_file g p)).
  - intros p' g _ _ Hmiss [c Hc]. exists c. rewrite lookup_insert_ne; [assumption | clash].
  - intros g _ Hmiss [c Hc]. exists c. rewrite lookup_insert_ne; [assumption | clash].
  - intros data g _ _ [c Hc]. destruct (decide (d ++ rel = p)) as [-> | Hne].
    + exists data. apply lookup_insert_eq.
    + exists c. now rewrite lookup_insert_ne.
Qed.

Lemma fs_extract_member_keeps_dir (p d : Path) (member : Path * Entry)
  (f : gmap Path Node) :
  f !! p = Some Dir -> snd (fs_extract_member d member f) !! p = Some Dir.
Proof.
  destruct member as [rel entry].
  apply (fs_extract_member_invariant (fun g => g !! p = Some Dir)).
  - intros p' g _ _ Hmiss Hp. rewrite lookup_insert_ne; [assumption | clash].
  - intros g _ Hmiss Hp. rewrite lookup_insert_ne; [assumption | clash].
  - intros data g _ Hnd Hp. rewrite lookup_insert_ne; [assumption | clash].
Qed.

Lemma fs_extract_member_keeps_present (p d : Path) (member : Path * Entry)
  (f : gmap Path Node) :
  f !! p <> None -> snd (fs_extract_member d member f) !! p <> None.
Proof.
  destruct member as [rel entry].
  assert (Hins : forall p' (x : Node) (g : gmap Path Node),
             g !! p <> None -> <[p' := x]> g !! p <> None).
  { intros p' x g Hr. destruct (decide (p' = p)) as [-> | Hne].
    - now rewrite lookup_insert_eq.
    - now rewrite lookup_insert_ne. }
  apply (fs_extract_member_invariant (fun g => g !! p <> None)); auto.
Qed.

Lemma fs_extract_member_keeps_data (p d rel : Path) (entry : Entry)
  (data : string) (f : gmap Path Node) :
  (forall c, entry = FileEntry c -> rel <> p) ->
  f !! (d ++ p) = Some (File data) ->
  snd (fs_extract_member d (rel, entry) f) !! (d ++ p) = Some (File data).
Proof.
  intros Hne.
  apply (fs_extract_member_invariant (fun g => g !! (d ++ p) = Some (File data))).
  - intros p' g _ _ Hmiss Hp. rewrite lookup_insert_ne; [assumption | clash].
  - intros g _ Hmiss Hp. rewrite lookup_insert_ne; [assumption | clash].
  - intros c g -> _ Hp. rewrite lookup_insert_ne; [assumption |].
    intros H. apply app_inv_head in H. now apply (Hne c).
Qed.

Lemma makedirs_made (name : Path) (f f' : gmap Path Node) :
  makedirs name f = (None, f') -> f' !! name = Some Dir.
Proof.
  unfold makedirs. rewrite <- (rev_involutive name) at 2.
  destruct (rev name) as [| tail rev_head]; cbn [makedirs_from].
  - unfold fs_try. destruct (os_mkdir [] f) as [e | g] eqn:H; [discriminate |].
    intros Heq. injection Heq as <-. apply os_mkdir_inr in H.
    destruct H as [_ ->]. apply lookup_insert_eq.
  - cbn zeta.
    assert (Hmk : forall f1, fs_try (os_mkdir (rev (tail :: rev_head))) f1 = (None, f') ->
                             f' !! rev (tail :: rev_head) = Some Dir).
    { intros f1. unfold fs_try.
      destruct (os_mkdir _ f1) as [e | g] eqn:H; [discriminate |].
      intros Heq. injection Heq as <-. apply os_mkdir_inr in H.
      destruct H as [_ ->]. apply lookup_insert_eq. }
    destruct (match rev_head with
              | [] => (None, f)
              | _ => if missing f (rev rev_head)
                     then makedirs_from rev_head f else (None, f)
              end) as [[e |] f1].
    + destruct e; try discriminate. apply Hmk.
    + apply Hmk.
Qed.

(** A member unpacked without an error is there, of its kind, and so is
    the directory above it. *)
Lemma fs_extract_member_done (d rel : Path) (entry : Entry)
  (f f' : gmap Path Node) :
  fs_extract_member d (rel, entry) f = (None, f') ->
  f' !! (d ++ rel) = Some match entry with
                          | FileEntry data => File data
                          | DirEntry => Dir
                          end
  /\ (parent (d ++ rel) <> [] -> f' !! parent (d ++ rel) <> None).
Proof.
  unfold fs_extract_member. cbn [fst snd fs_steps].
  destruct (match parent (d ++ rel) with
            | [] => (None, f)
            | _ => if missing f (parent (d ++ rel))
                   then makedirs (parent (d ++ rel)) f else (None, f)
            end) as [[e |] f1] eqn:Hup; [discriminate |].
  assert (Hupper : parent (d ++ rel) <> [] -> f1 !! parent (d ++ rel) <> None).
  { intros Hne. destruct (parent (d ++ rel)) as [| c k] eqn:Hp; [congruence |].
    destruct (missing f (c :: k)) eqn:Hmiss.
    - apply makedirs_made in Hup. congruence.
    - injection Hup as <-. now apply missing_false. }
  assert (Hins : forall (x : Node) (r : Path),
             f1 !! r <> None -> <[d ++ rel := x]> f1 !! r <> None).
  { intros x r Hr. destruct (decide (d ++ rel = r)) as [-> | Hne].
    - now rewrite lookup_insert_eq.
    - now rewrite lookup_insert_ne. }
  destruct entry as [data |]; unfold fs_try.
  - destruct (fs_write (d ++ rel) data f1) as [e | g] eqn:H; [discriminate |].
    intros Heq. injection Heq as <-. apply fs_write_inr in H. subst g.
    split; [apply lookup_insert_eq | auto].
  - destruct (fs_mkdir (d ++ rel) f1) as [e | g] eqn:H; [discriminate |].
    intros Heq. injection Heq as <-. apply fs_mkdir_inr in H. subst g.
    split; [apply lookup_insert_eq | auto].
Qed.

Lemma fs_steps_done_cons (op : fs_partial) (ops : list fs_partial)
  (f f' : gmap Path Node) :
  fs_steps (op :: ops) f = (None, f') ->
  exists f1, op f = (None, f1) /\ fs_steps ops f1 = (None, f').
Proof.
  cbn [fs_steps]. destruct (op f) as [[e |] f1]; [discriminate | eauto].
Qed.

Lemma fs_steps_done_app (ops1 ops2 : list fs_partial) (f f' : gmap Path Node) :
  fs_steps (ops1 ++ ops2) f = (None, f') ->
  exists f1, fs_steps ops1 f = (None, f1) /\ fs_steps ops2 f1 = (None, f').
Proof.
  rewrite fs_steps_app. destruct (fs_steps ops1 f) as [[e |] f1];
    [discriminate | eauto].
Qed.

(** The members unpacked without an error, whatever comes of the members
    after them. *)
Lemma fs_extract_members_done (d : Path) (earlier later : list (Path * Entry))
  (f f1 : gmap Path Node) :
  fs_steps (map (fs_extract_member d) earlier) f = (None, f1) ->
  let f' := snd (fs_steps (map (fs_extract_member d) later) f1) in
  (forall rel data, In (rel, FileEntry data) earlier -> is_file f' (d ++ rel))
  /\ (forall rel, In (rel, DirEntry) earlier -> f' !! (d ++ rel) = Some Dir)
  /\ (forall rel entry, In (rel, entry) earlier -> parent (d ++ rel) <> [] ->
        f' !! parent (d ++ rel) <> None).
Proof.
  revert f. induction earlier as [| [rel0 entry0] ms IH]; intros f Hdone;
    [cbn; intuition |].
  cbn [map] in Hdone. apply fs_steps_done_cons in Hdone.
  destruct Hdone as (g & Hm & Hms).
  destruct (IH g Hms) as (IHf & IHd & IHp). cbn zeta.
  apply fs_extract_member_done in Hm. destruct Hm as [Hthere Hupper].
  assert (Hlater : forall I : gmap Path Node -> Prop,
             (forall member f0, I f0 -> I (snd (fs_extract_member d member f0))) ->
             I g ->
             I (snd (fs_steps (map (fs_extract_member d) later) f1))).
  { intros I HI Hg.
    apply fs_extract_members_invariant; [intros; now apply HI |].
    replace f1 with (snd (fs_steps (map (fs_extract_member d) ms) g))
      by now rewrite Hms.
    apply fs_extract_members_invariant; [intros; now apply HI | assumption]. }
  split; [| split].
  - intros rel data [Heq | Hin]; [| eauto]. injection Heq as ? ?. subst rel0 entry0.
    apply (Hlater (fun h => is_file h (d ++ rel))).
    + intros. now apply fs_extract_member_keeps_file.
    + now exists data.
  - intros rel [Heq | Hin]; [| eauto]. injection Heq as ? ?. subst rel0 entry0.
    apply (Hlater (fun h => h !! (d ++ rel) = Some Dir)); [| assumption].
    intros. now apply fs_extract_member_keeps_dir.
  - intros rel entry [Heq | Hin] Hne; [| eauto]. injection Heq as ? ?.
    subst rel0 entry0.
    apply (Hlater (fun h => h !! parent (d ++ rel) <> None)); [| auto].
    intros. now apply fs_extract_member_keeps_present.
Qed.

(** Of the file members of one name, the last one unpacked gives the
    data. *)
Lemma fs_extract_latest (d : Path) (earlier : list (Path * Entry)) (rel : Path)
  (data : string) (later : list (Path * Entry)) (f f' : gmap Path Node) :
  fs_steps (map (fs_extract_member d) (earlier ++ (rel, FileEntry data) :: later)) f
  = (None, f') ->
  (forall data', ~ In (rel, FileEntry data') later) ->
  f' !! (d ++ rel) = Some (File data).
Proof.
  rewrite map_app. intros H Hlater.
  apply fs_steps_done_app in H. destruct H as (f1 & _ & H).
  cbn [map] in H. apply fs_steps_done_cons in H. destruct H as (f2 & H2 & H).
  apply fs_extract_member_done in H2. destruct H2 as [H2 _].
  replace f' with (snd (fs_steps (map (fs_extract_member d) later) f2))
    by now rewrite H.
  apply (fs_extract_members_invariant (fun g => g !! (d ++ rel) = Some (File data)));
    [| assumption].
  intros [rel' entry'] g Hin Hg. apply fs_extract_member_keeps_data; [| assumption].
  intros c -> ->. now apply (Hlater c).
Qed.

Lemma extractall_run (E : Env) (z d : Path) (w : World) :
  extractall E z d w
  = let w1 := mkWorld (fs w) (events w ++ [EvExtractall z d]) in
    match fs w !! z with
    | Some (File data) =>
        match zip_members E data with
        | Some members =>
            match fs_steps (map (fs_extract_member d) members) (fs w) with
            | (None, f') => (Returned tt, mkWorld f' (events w1))
            | (Some e, f') => (Raised e, mkWorld f' (events w1))
            end
        | None => (Raised (BadZipFile z), w1)
        end
    | Some Dir => (Raised (IsADirectoryError z), w1)
    | None => (Raised (FileNotFoundError z), w1)
    end.
Proof.
  unfold extractall. unfold_lib.
  destruct (fs w !! z) as [[data |] |]; try reflexivity.
  destruct (zip_members E data) as [members |]; [| reflexivity].
  now destruct (fs_steps _ _) as [[e |] f'].
Qed.

Lemma extractall_fs (E : Env) (z d : Path) (w : World) :
  fs (snd (extractall E z d w)) = fs w
  \/ exists members,
       fs (snd (extractall E z d w))
       = snd (fs_steps (map (fs_extract_member d) members) (fs w)).
Proof.
  rewrite extractall_run. cbn zeta.
  destruct (fs w !! z) as [[data |] |]; auto.
  destruct (zip_members E data) as [members |]; auto.
  right. exists members. now destruct (fs_steps _ _) as [[e |] f'].
Qed.

(** ** What a computation leaves absent *)

Lemma keeps_ret {A : Type} q (a : A) : keeps_absent q (ret a).
Proof. now intros w. Qed.

Lemma keeps_raise {A : Type} q (e : Exn) : keeps_absent q (@raise A e).
Proof. now intros w. Qed.

Lemma keeps_emit q (e : Event) : keeps_absent q (emit e).
Proof. now intros w. Qed.

Lemma keeps_bind {A B : Type} q (m : M A) (k : A -> M B) :
  keeps_absent q m -> (forall a, keeps_absent q (k a)) -> keeps_absent q (bind m k).
Proof.
  intros Hm Hk w Hq. unfold bind. specialize (Hm w Hq).
  destruct (m w) as [[a | e] w1]; simpl in *; [now apply Hk | assumption].
Qed.

Lemma keeps_lift_fs q op : fs_keeps_absent q op -> keeps_absent q (lift_fs op).
Proof.
  intros Hop w Hq. unfold_lib.
  destruct (op (fs w)) as [e | f'] eqn:H; simpl; [assumption | eauto].
Qed.

Lemma fs_mkdir_keeps q p : q <> p -> fs_keeps_absent q (fs_mkdir p).
Proof.
  intros Hne f f' H Hq. apply fs_mkdir_inr in H. subst f'.
  now rewrite lookup_insert_ne.
Qed.

Lemma fs_write_keeps q p data : q <> p -> fs_keeps_absent q (fs_write p data).
Proof.
  intros Hne f f' H Hq. unfold fs_write in H.
  repeat case_match; simplify_eq; now rewrite lookup_insert_ne.
Qed.

Lemma keeps_print q line : keeps_absent q (print line).
Proof. now intros w. Qed.

Lemma keeps_path_exists q p : keeps_absent q (path_exists p).
Proof. now intros w. Qed.

Lemma keeps_read_text q E p : keeps_absent q (read_text E p).
Proof. intros w Hq. unfold_lib. now repeat case_match. Qed.

Lemma keeps_mkdir q p : q <> p -> keeps_absent q (mkdir_exist_ok p).
Proof.
  intros Hne. unfold mkdir_exist_ok.
  apply keeps_bind; [apply keeps_emit | intros _].
  now apply keeps_lift_fs, fs_mkdir_keeps.
Qed.

Lemma keeps_write_text q p data : q <> p -> keeps_absent q (write_text p data).
Proof.
  intros Hne. unfold write_text.
  apply keeps_bind; [apply keeps_emit | intros _].
  now apply keeps_lift_fs, fs_write_keeps.
Qed.

Lemma keeps_unlink q p : keeps_absent q (unlink p).
Proof.
  intros w Hq. unfold_lib. repeat case_match; simpl; try assumption.
  destruct (decide (p = q)) as [-> | Hne];
    [apply lookup_delete_eq | now rewrite lookup_delete_ne].
Qed.

Lemma keeps_urlretrieve q E url p : q <> p -> keeps_absent q (urlretrieve E url p).
Proof.
  intros Hne. unfold urlretrieve.
  apply keeps_bind; [apply keeps_emit | intros _].
  destruct (urlopen E url).
  - now apply keeps_lift_fs, fs_write_keeps.
  - apply keeps_bind; [now apply keeps_lift_fs, fs_write_keeps | intros _].
    apply keeps_raise.
  - apply keeps_raise.
Qed.

Lemma keeps_extractall q E z d :
  ~ d `prefix_of` q -> ~ q `prefix_of` d -> keeps_absent q (extractall E z d).
Proof.
  intros Hq Hq' w Hw.
  destruct (extractall_fs E z d w) as [-> | [members ->]]; [assumption |].
  now rewrite fs_extract_members_unrelated.
Qed.

Lemma keeps_subprocess_run q E argv :
  children_leave_absent E q -> keeps_absent q (subprocess_run E argv).
Proof.
  intros Hc w Hq. unfold_lib.
  destruct (run_process E argv (fs w)) as [[st f'] |] eqn:H; simpl; eauto.
Qed.

(** ** The steps before the requirements are looked for *)

Lemma python_dir_not_above_requirements (E : Env) :
  ~ python_dir E `prefix_of` requirements_file E.
Proof.
  intros H. apply prefix_length in H.
  unfold python_dir, portable_dir, requirements_file, joinpath in H.
  rewrite !length_app in H. simpl in H. lia.
Qed.

Lemma python_dir_not_above_pip_script (E : Env) :
  ~ python_dir E `prefix_of` pip_script E.
Proof.
  intros [k H]. revert H. 
  unfold python_dir, pip_script, portable_dir, joinpath.
  rewrite <- !app_assoc. intros H. apply app_inv_head in H.
  cbn in H. discriminate H.
Qed.

Lemma requirements_not_above_python_dir (E : Env) :
  ~ requirements_file E `prefix_of` python_dir E.
Proof.
  intros [k H]. revert H.
  unfold python_dir, requirements_file, portable_dir, joinpath.
  rewrite <- !app_assoc. intros H. apply app_inv_head in H.
  cbn in H. discriminate H.
Qed.

Lemma pip_script_not_above_python_dir (E : Env) :
  ~ pip_script E `prefix_of` python_dir E.
Proof.
  intros [k H]. revert H.
  unfold python_dir, pip_script, portable_dir, joinpath.
  rewrite <- !app_assoc. intros H. apply app_inv_head in H.
  cbn in H. discriminate H.
Qed.

Ltac keeps_script :=
  repeat first
    [ assumption
    | apply keeps_ret | apply keeps_raise | apply keeps_print
    | apply keeps_path_exists | apply keeps_read_text | apply keeps_unlink
    | apply keeps_mkdir; path_neq
    | apply keeps_write_text; path_neq
    | apply keeps_urlretrieve; path_neq
    | apply keeps_extractall;
        first [ apply python_dir_not_above_requirements
              | apply python_dir_not_above_pip_script
              | apply requirements_not_above_python_dir
              | apply pip_script_not_above_python_dir ]
    | apply keeps_subprocess_run; assumption
    | apply keeps_bind
    | progress intros
    | progress cbv zeta
    | match goal with
      | |- keeps_absent _ (match ?x with _ => _ end) => destruct x
      | |- keeps_absent _ (if ?x then _ else _) => destruct x
      end ].

Lemma fetch_runtime_keeps_requirements E url :
  keeps_absent (requirements_file E)
    (fetch_runtime E url (portable_dir E) (python_dir E)).
Proof. unfold fetch_runtime, download_file, extract_zip. keeps_script. Qed.

Lemma fetch_runtime_keeps_pip_script E url :
  keeps_absent (pip_script E)
    (fetch_runtime E url (portable_dir E) (python_dir E)).
Proof. unfold fetch_runtime, download_file, extract_zip. keeps_script. Qed.

Lemma configure_pth_keeps_requirements E prefix :
  keeps_absent (requirements_file E) (configure_pth E prefix (python_dir E)).
Proof. unfold configure_pth. keeps_script. Qed.

Lemma configure_pth_keeps_pip_script E prefix :
  keeps_absent (pip_script E) (configure_pth E prefix (python_dir E)).
Proof. unfold configure_pth. keeps_script. Qed.

Lemma install_pip_keeps_requirements E :
  children_leave_absent E (requirements_file E) ->
  keeps_absent (requirements_file E) (install_pip E (portable_dir E) (python_dir E)).
Proof. intros Hc. unfold install_pip. keeps_script. Qed.

Lemma provision_keeps_requirements E prefix url :
  children_leave_absent E (requirements_file E) ->
  keeps_absent (requirements_file E) (provision E prefix url).
Proof.
  intros Hc. unfold provision.
  apply keeps_bind; [apply fetch_runtime_keeps_requirements | intros _].
  apply keeps_bind; [apply configure_pth_keeps_requirements | intros _].
  now apply install_pip_keeps_requirements.
Qed.

Ltac not_past :=
  cbn [past_requirements];
  first [ exact (fun H => H)
        | path_neq
        | let H := fresh in intros [H | H]; revert H; path_neq
        | unfold install_argv, pip_install_argv; discriminate ].

Lemma provision_emits E prefix url :
  emits (fun e => ~ past_requirements E e) (provision E prefix url).
Proof.
  unfold provision, fetch_runtime, download_file, extract_zip, configure_pth,
    install_pip.
  emits_script not_past.
Qed.

Lemma setup_with_url (E : Env) (prefix url : string) (w : World) :
  (fetch_runtime E url (portable_dir E) (python_dir E) ;;
   configure_pth E prefix (python_dir E) ;;
   install_pip E (portable_dir E) (python_dir E) ;;
   install_requirements E (project_root E) (python_dir E)) w
  = match provision E prefix url w with
    | (Returned _, w') => install_requirements E (project_root E) (python_dir E) w'
    | (Raised e, w') => (Raised e, w')
    end.
Proof.
  unfold provision, bind.
  destruct (fetch_runtime _ _ _ _ _) as [[[] | e] w1]; [| reflexivity].
  destruct (configure_pth _ _ _) as [[[] | e] w2]; [| reflexivity].
  now destruct (install_pip _ _ _ _) as [[[] | e] w3].
Qed.

Lemma install_requirements_absent (E : Env) (w : World) :
  fs w !! requirements_file E = None ->
  install_requirements E (project_root E) (python_dir E) w
  = (Returned false, mkWorld (fs w) (events w ++ requirements_not_found E)).
Proof.
  intros H. unfold install_requirements. fold (requirements_file E).
  unfold_lib. rewrite H. cbn. now tidy.
Qed.


Lemma install_pip_returned (E : Env) (w w' : World) :
  install_pip E (portable_dir E) (python_dir E) w = (Returned tt, w') ->
  exists l f st,
    events w' = events w ++ l
    /\ In (EvRun (bootstrap_argv E)) l
    /\ run_process E (bootstrap_argv E) f = Some (st, fs w')
    /\ (fs w !! pip_script E = None ->
        In (EvUrlretrieve get_pip_url (pip_script E)) l).
Proof.
  unfold install_pip. fold (pip_script E) (python_exe E). fold (bootstrap_argv E).
  unfold_lib. intros H.
  destruct (fs w !! pip_script E) as [node |] eqn:Hlook; cbn in H.
  - destruct (run_process E (bootstrap_argv E) (fs w)) as [[st f'] |] eqn:Hrun;
      cbn in H; [| discriminate].
    injection H as <-. cbn [fs events]. tidy_events.
    eexists _, (fs w), st. split; [reflexivity |].
    split; [cbn; tauto |]. split; [exact Hrun | discriminate].
  - repeat case_match; simplify_eq; cbn [fs events]; tidy_events;
      eexists _, _, _; (split; [reflexivity |]);
      (split; [cbn; tauto |]); (split; [eassumption | intros _; cbn; tauto]).
Qed.

Lemma provision_returned (E : Env) (prefix url : string) (w w' : World) :
  provision E prefix url w = (Returned tt, w') ->
  exists l f st,
    events w' = events w ++ l
    /\ Forall (fun e => ~ past_requirements E e) l
    /\ In (EvRun (bootstrap_argv E)) l
    /\ run_process E (bootstrap_argv E) f = Some (st, fs w')
    /\ (fs w !! pip_script E = None ->
        In (EvUrlretrieve get_pip_url (pip_script E)) l).
Proof.
  intros H.
  destruct (provision_emits E prefix url w) as (l & Hl & HP).
  rewrite H in Hl. cbn [snd] in Hl.
  unfold provision in H. unfold bind at 1 in H.
  pose proof (fetch_runtime_keeps_pip_script E url w) as K1.
  destruct (extends_fetch_runtime E url (portable_dir E) (python_dir E) w) as (l1 & E1 & _).
  destruct (fetch_runtime _ _ _ _ _) as [[[] | e] w1]; [| discriminate].
  unfold bind at 1 in H.
  pose proof (configure_pth_keeps_pip_script E prefix w1) as K2.
  destruct (extends_configure_pth E prefix (python_dir E) w1) as (l2 & E2 & _).
  destruct (configure_pth _ _ _) as [[[] | e] w2]; [| discriminate].
  cbn [snd] in *.
  destruct (install_pip_returned E w2 w' H) as (l3 & f & st & E3 & Hrun & Hf & Hget).
  exists l, f, st. split; [exact Hl |]. split; [exact HP |].
  assert (l = l1 ++ l2 ++ l3) as ->.
  { apply (app_inv_head (events w)). rewrite <- Hl, E3, E2, E1.
    now rewrite <- !app_assoc. }
  split; [rewrite !in_app_iff; tauto |]. split; [exact Hf |].
  intros Ha. rewrite !in_app_iff. right; right. auto.
Qed.

Lemma not_past_in (E : Env) (l : list Event) (e : Event) :
  Forall (fun e => ~ past_requirements E e) l -> past_requirements E e -> ~ In e l.
Proof. intros HP He Hin. rewrite List.Forall_forall in HP. exact (HP e Hin He). Qed.

Lemma requirements_absent_after_directories (E : Env) (f : gmap Path Node) :
  f !! requirements_file E = None ->
  <[python_dir E := Dir]> (<[portable_dir E := Dir]> f) !! requirements_file E = None.
Proof. intros H. rewrite !lookup_insert_ne; [assumption | path_neq | path_neq]. Qed.


Lemma setup_directories_raised (E : Env) (prefix : string) (w w1 : World) (e : Exn) :
  make_directories (portable_dir E) (python_dir E)
    (mkWorld (fs w) (events w ++ [banner E])) = (Raised e, w1) ->
  setup_portable_python E prefix w = (Raised e, w1).
Proof. intros H. rewrite setup_after_banner. now rewrite H. Qed.

Lemma setup_after_directories (E : Env) (prefix : string) (w w1 : World)
  (u : option string) :
  make_directories (portable_dir E) (python_dir E)
    (mkWorld (fs w) (events w ++ [banner E])) = (Returned tt, w1) ->
  get_python_download_url E w1
  = (Returned u,
     mkWorld (fs w1) (events w1 ++ [EvPlatform "system"; EvPlatform "machine"])) ->
  setup_portable_python E prefix w
  = match u with
    | Some (String _ _ as url) =>
        match provision E prefix url
                (mkWorld (fs w1)
                   (events w1 ++ [EvPlatform "system"; EvPlatform "machine"])) with
        | (Returned _, w') =>
            install_requirements E (project_root E) (python_dir E) w'
        | (Raised e, w') => (Raised e, w')
        end
    | _ => (Returned false, mkWorld (fs w1) (events w1 ++ diagnostics))
    end.
Proof.
  intros Hmk Hu. rewrite setup_after_banner, Hmk.
  unfold bind at 1. rewrite Hu.
  destruct u as [[| c url] |].
  - unfold_lib. now tidy.
  - apply setup_with_url.
  - unfold_lib. now tidy.
Qed.

(** C3: when [requirements.txt] is not at the project root (and no child
    process puts it there), the dependency installation is never started,
    and the run returns the failure flag; the only other outcome is an
    exception raised by an earlier step, before the requirements were even
    looked for. *)
Theorem missing_requirements_fails (E : Env) (prefix : string) (w : World) :
  fs w !! requirements_file E = None ->
  children_leave_absent E (requirements_file E) ->
  let r := setup_portable_python E prefix w in
  ~ In (EvRun (install_argv E)) (since w (snd r))
  /\ (fst r = Returned false
      \/ exists e, fst r = Raised e
                   /\ ~ In (EvExists (requirements_file E)) (since w (snd r))).
Proof.
  intros Habs Hchild r. subst r.
  pose proof (make_directories_run E (mkWorld (fs w) (events w ++ [banner E]))) as Hrun.
  destruct (make_directories _ _ _) as [[[] | e] w1] eqn:Hmk; cbn [fs events] in Hrun.
  - destruct Hrun as [Hfs Hev].
    destruct (get_python_download_url_events E w1) as [u Hu].
    rewrite (setup_after_directories E prefix w w1 u Hmk Hu).
    assert (Hquiet :
      ~ In (EvRun (install_argv E))
          (since w (mkWorld (fs w1) (events w1 ++ diagnostics)))).
    { erewrite since_events by (cbn [events]; rewrite Hev, <- !app_assoc; reflexivity).
      cbn; intuition discriminate. }
    destruct u as [[| c url] |]; [now split; [| left] | | now split; [| left]].
    set (w2 := mkWorld (fs w1) (events w1 ++ [EvPlatform "system"; EvPlatform "machine"])).
    assert (Hreq : fs w2 !! requirements_file E = None).
    { subst w2. cbn [fs]. rewrite Hfs.
      now apply requirements_absent_after_directories. }
    pose proof (provision_keeps_requirements E prefix (String c url) Hchild w2 Hreq) as Hkeep.
    destruct (provision_emits E prefix (String c url) w2) as (l & Hl & HP).
    pose proof (not_past_in E l (EvRun (install_argv E)) HP eq_refl).
    pose proof (not_past_in E l (EvExists (requirements_file E)) HP eq_refl).
    destruct (provision E prefix (String c url) w2) as [[[] | e] w5];
      cbn [fst snd] in *.
    + rewrite install_requirements_absent by assumption. cbn [fst snd].
      erewrite since_events
        by (cbn [events]; rewrite Hl; subst w2; cbn [events];
            rewrite Hev, <- !app_assoc; reflexivity).
      split; [| now left].
      unfold requirements_not_found, banner. rewrite !in_app_iff. cbn.
      intuition discriminate.
    + erewrite since_events
        by (rewrite Hl; subst w2; cbn [events];
            rewrite Hev, <- !app_assoc; reflexivity).
      unfold banner. rewrite !in_app_iff.
      split; [cbn; intuition discriminate |].
      right. exists e. split; [reflexivity |]. cbn. intuition discriminate.
  - rewrite (setup_directories_raised E prefix w w1 e Hmk). cbn [fst snd].
    destruct Hrun as [_ [Hev | Hev]];
      (erewrite since_events by (rewrite Hev, <- !app_assoc; reflexivity));
      (split; [cbn; intuition discriminate |]);
      right; exists e; (split; [reflexivity | cbn; intuition discriminate]).
Qed.

Lemma child_adds_pip_only :
  children_leave_absent Sample.windows (requirements_file Sample.windows).
Proof.
  intros argv f st f' H Habs. unfold Sample.windows, Sample.child in H.
  cbn [run_process] in H.
  destruct argv as [| a1 [| a2 [| a3 [| a4 rest]]]]; injection H as <- <-;
    try assumption.
  now rewrite lookup_insert_ne by (vm_compute; discriminate).
Qed.

Lemma missing_requirements_fails_witness :
  fst (setup_portable_python Sample.windows Sample.prefix Sample.bare)
  = Returned false
  /\ ~ In (EvRun (install_argv Sample.windows))
         (since Sample.bare
            (snd (setup_portable_python Sample.windows Sample.prefix Sample.bare))).
Proof.
  split; [vm_compute; reflexivity |].
  apply (missing_requirements_fails Sample.windows Sample.prefix Sample.bare).
  - vm_compute. reflexivity.
  - exact child_adds_pip_only.
Defined.



(** * Further properties *)

(** ** What a computation leaves as it is *)

Lemma preserves_ret {A : Type} q (a : A) : preserves q (ret a).
Proof. now intros w. Qed.

Lemma preserves_raise {A : Type} q (e : Exn) : preserves q (@raise A e).
Proof. now intros w. Qed.

Lemma preserves_emit q (e : Event) : preserves q (emit e).
Proof. now intros w. Qed.

Lemma preserves_bind {A B : Type} q (m : M A) (k : A -> M B) :
  preserves q m -> (forall a, preserves q (k a)) -> preserves q (bind m k).
Proof.
  intros Hm Hk w. unfold bind. specialize (Hm w).
  destruct (m w) as [[a | e] w1]; simpl in *; [| assumption].
  now rewrite Hk.
Qed.

Lemma preserves_lift_fs q op : fs_preserves q op -> preserves q (lift_fs op).
Proof.
  intros Hop w. unfold_lib.
  destruct (op (fs w)) as [e | f'] eqn:H; simpl; [reflexivity | eauto].
Qed.

Lemma fs_mkdir_preserves q p : q <> p -> fs_preserves q (fs_mkdir p).
Proof.
  intros Hne f f' H. apply fs_mkdir_inr in H. subst f'.
  now rewrite lookup_insert_ne.
Qed.

Lemma fs_write_preserves q p data : q <> p -> fs_preserves q (fs_write p data).
Proof.
  intros Hne f f' H. apply fs_write_inr in H. subst f'.
  now rewrite lookup_insert_ne.
Qed.

Lemma preserves_print q line : preserves q (print line).
Proof. now intros w. Qed.

Lemma preserves_path_exists q p : preserves q (path_exists p).
Proof. now intros w. Qed.

Lemma preserves_read_text q E p : preserves q (read_text E p).
Proof. intros w. unfold_lib. now repeat case_match. Qed.

Lemma preserves_mkdir q p : q <> p -> preserves q (mkdir_exist_ok p).
Proof.
  intros Hne. unfold mkdir_exist_ok.
  apply preserves_bind; [apply preserves_emit | intros _].
  now apply preserves_lift_fs, fs_mkdir_preserves.
Qed.

Lemma preserves_write_text q p data : q <> p -> preserves q (write_text p data).
Proof.
  intros Hne. unfold write_text.
  apply preserves_bind; [apply preserves_emit | intros _].
  now apply preserves_lift_fs, fs_write_preserves.
Qed.

Lemma preserves_unlink q p : q <> p -> preserves q (unlink p).
Proof.
  intros Hne w. unfold_lib. repeat case_match; simpl; try reflexivity.
  now rewrite lookup_delete_ne.
Qed.

Lemma preserves_urlretrieve q E url p : q <> p -> preserves q (urlretrieve E url p).
Proof.
  intros Hne. unfold urlretrieve.
  apply preserves_bind; [apply preserves_emit | intros _].
  destruct (urlopen E url).
  - now apply preserves_lift_fs, fs_write_preserves.
  - apply preserves_bind; [now apply preserves_lift_fs, fs_write_preserves | intros _].
    apply preserves_raise.
  - apply preserves_raise.
Qed.

Lemma preserves_extractall q E z d :
  ~ d `prefix_of` q -> ~ q `prefix_of` d -> preserves q (extractall E z d).
Proof.
  intros Hq Hq' w.
  destruct (extractall_fs E z d w) as [-> | [members ->]]; [reflexivity |].
  now apply fs_extract_members_unrelated.
Qed.

Lemma preserves_subprocess_run q E argv :
  children_preserve E q -> preserves q (subprocess_run E argv).
Proof.
  intros Hc w. unfold_lib.
  destruct (run_process E argv (fs w)) as [[st f'] |] eqn:H; simpl; eauto.
Qed.

(** ** Unpacking an archive *)

Lemma extract_zip_run (E : Env) (z d : Path) (w : World) :
  extract_zip E z d w
  = let w1 := mkWorld (fs w)
                (events w ++ [EvPrint ("Extracting " +:+ str E z +:+ "...");
                              EvExtractall z d]) in
    match fs w !! z with
    | Some (File data) =>
        match zip_members E data with
        | Some members =>
            match fs_steps (map (fs_extract_member d) members) (fs w) with
            | (None, f') =>
                (Returned tt,
                 mkWorld f' (events w1 ++ [EvPrint ("Extracted to " +:+ str E d)]))
            | (Some e, f') => (Raised e, mkWorld f' (events w1))
            end
        | None => (Raised (BadZipFile z), w1)
        end
    | Some Dir => (Raised (IsADirectoryError z), w1)
    | None => (Raised (FileNotFoundError z), w1)
    end.
Proof.
  unfold extract_zip, bind, print, emit. rewrite extractall_run. cbn zeta.
  cbn [fs events]. tidy.
  destruct (fs w !! z) as [[data |] |]; try reflexivity.
  destruct (zip_members E data) as [members |]; [| reflexivity].
  destruct (fs_steps _ _) as [[e |] f']; now tidy.
Qed.

Lemma extract_zip_fs (E : Env) (z d : Path) (w : World) :
  fs (snd (extract_zip E z d w)) = fs w
  \/ exists data members,
       fs w !! z = Some (File data)
       /\ zip_members E data = Some members
       /\ fs (snd (extract_zip E z d w))
          = snd (fs_steps (map (fs_extract_member d) members) (fs w)).
Proof.
  rewrite extract_zip_run. cbn zeta.
  destruct (fs w !! z) as [[data |] |]; auto.
  destruct (zip_members E data) as [members |] eqn:Hm; auto.
  right. exists data, members. split; [reflexivity |]. split; [assumption |].
  now destruct (fs_steps _ _) as [[e |] f'].
Qed.

(** X1: an archive that is missing, or is a directory, or is not a zip
    archive makes [extract_zip] raise with the file system as it was, after
    its first line and before "Extracted to". *)
Theorem extract_zip_rejects (E : Env) (z d : Path) (w : World) :
  (forall data, fs w !! z = Some (File data) -> zip_members E data = None) ->
  exists e,
    extract_zip E z d w
    = (Raised e,
       mkWorld (fs w)
         (events w ++ [EvPrint ("Extracting " +:+ str E z +:+ "...");
                       EvExtractall z d]))
    /\ e = match fs w !! z with
           | Some (File _) => BadZipFile z
           | Some Dir => IsADirectoryError z
           | None => FileNotFoundError z
           end.
Proof.
  intros Hbad. rewrite extract_zip_run. cbn zeta.
  destruct (fs w !! z) as [[data |] |]; eauto.
  rewrite (Hbad data eq_refl). eauto.
Qed.

Lemma extract_zip_rejects_witness :
  fst (extract_zip Faults.junk_archive (python_zip Faults.junk_archive)
         (python_dir Faults.junk_archive) Faults.junk_downloaded)
  = Raised (BadZipFile (python_zip Faults.junk_archive)).
Proof.
  destruct (extract_zip_rejects Faults.junk_archive (python_zip Faults.junk_archive)
              (python_dir Faults.junk_archive) Faults.junk_downloaded) as (e & H & He).
  - intros data H. vm_compute in H. injection H as <-. reflexivity.
  - rewrite H. cbn [fst]. rewrite He. reflexivity.
Defined.

(** X2: outside the directory it unpacks into, [extract_zip] makes the
    missing directories that lead to that directory and changes nothing
    else, whether it returns or raises: a path that is neither in the
    target directory nor leads to it is left as it is; a path that leads to
    it is left as it is or goes from missing to a directory; and with the
    target directory and the directory above it there, nothing outside the
    target directory changes at all. *)
Theorem extract_zip_stays_inside (E : Env) (z d q : Path) (w : World) :
  ~ d `prefix_of` q ->
  let f' := fs (snd (extract_zip E z d w)) in
  (f' !! q = fs w !! q
   \/ (q `prefix_of` d /\ fs w !! q = None /\ f' !! q = Some Dir))
  /\ (fs w !! d <> None -> fs w !! parent d <> None -> f' !! q = fs w !! q).
Proof.
  intros Hq. cbn zeta.
  destruct (extract_zip_fs E z d w) as [-> | (data & members & _ & _ & ->)].
  - auto.
  - split; [now apply fs_extract_members_outside |].
    intros Hd Hpd. now apply fs_extract_members_inside.
Qed.

Lemma extract_zip_stays_inside_witness :
  let E := Sample.windows in
  let w := mkWorld (<[python_zip E := File "PK-amd64"]> Sample.disk) [] in
  let f' := fs (snd (extract_zip E (python_zip E) (python_dir E ++ ["3.10"]) w)) in
  fs w !! python_dir E = None
  /\ f' !! python_dir E = Some Dir
  /\ f' !! requirements_file E = Some (File "requests").
Proof.
  intros E w f'.
  assert (Hpy : ~ (python_dir E ++ ["3.10"]) `prefix_of` python_dir E)
    by (intros H; apply prefix_length in H; vm_compute in H; lia).
  assert (Hreq : ~ (python_dir E ++ ["3.10"]) `prefix_of` requirements_file E)
    by (intros H; apply prefix_length in H; vm_compute in H; lia).
  split; [reflexivity |]. split.
  - destruct (extract_zip_stays_inside E (python_zip E) (python_dir E ++ ["3.10"])
                (python_dir E) w Hpy) as [[H | (_ & _ & H)] _].
    + vm_compute in H. discriminate H.
    + exact H.
  - destruct (extract_zip_stays_inside E (python_zip E) (python_dir E ++ ["3.10"])
                (requirements_file E) w Hreq) as [[H | (Hpre & _)] _].
    + etrans; [exact H | reflexivity].
    + destruct Hpre as [k Hk]. vm_compute in Hk. discriminate Hk.
Defined.

(** X3: when [extract_zip] returns, every file member of the archive is a
    regular file below the target directory and every directory member is a
    directory there; the directory above each member is there; and a file
    member that no later file member shares its name with holds its own
    data (of two file members of one name the later one wins). *)
Theorem extract_zip_unpacks (E : Env) (z d : Path) (w : World)
  (data : string) (members : list (Path * Entry)) :
  fs w !! z = Some (File data) ->
  zip_members E data = Some members ->
  fst (extract_zip E z d w) = Returned tt ->
  let f' := fs (snd (extract_zip E z d w)) in
  (forall rel content, In (rel, FileEntry content) members -> is_file f' (d ++ rel))
  /\ (forall rel, In (rel, DirEntry) members -> f' !! (d ++ rel) = Some Dir)
  /\ (forall rel entry, In (rel, entry) members -> parent (d ++ rel) <> [] ->
        f' !! parent (d ++ rel) <> None)
  /\ (forall earlier rel content later,
        members = earlier ++ (rel, FileEntry content) :: later ->
        (forall content', ~ In (rel, FileEntry content') later) ->
        f' !! (d ++ rel) = Some (File content)).
Proof.
  intros Hz Hm. rewrite extract_zip_run. cbn zeta. rewrite Hz, Hm.
  destruct (fs_steps _ _) as [[e |] f1] eqn:Hsteps; [discriminate |]. intros _.
  cbn [snd fs].
  destruct (fs_extract_members_done d members [] (fs w) f1 Hsteps)
    as (Hfiles & Hdirs & Hupper).
  split; [exact Hfiles |]. split; [exact Hdirs |]. split; [exact Hupper |].
  intros earlier rel content later -> Hlater.
  now apply (fs_extract_latest d earlier rel content later (fs w)).
Qed.

Lemma extract_zip_unpacks_witness :
  let E := Sample.windows in
  let w := mkWorld (<[python_zip E := File "PK-amd64"]> Sample.disk) [] in
  let f' := fs (snd (extract_zip E (python_zip E) (python_dir E) w)) in
  fs w !! python_dir E = None
  /\ is_file f' (python_exe E)
  /\ f' !! (python_dir E ++ ["Lib"]) = Some Dir
  /\ f' !! python_dir E <> None
  /\ f' !! (python_dir E ++ ["Lib"; "site.py"]) = Some (File "import sys").
Proof.
  intros E w f'.
  destruct (extract_zip_unpacks E (python_zip E) (python_dir E) w
              "PK-amd64" Sample.archive)
    as (Hfiles & Hdirs & Hupper & Hlast);
    [reflexivity | reflexivity | vm_compute; reflexivity |].
  split; [reflexivity |]. split; [| split; [| split]].
  - apply (Hfiles ["python.exe"] "MZ"). left. reflexivity.
  - apply (Hdirs ["Lib"]). right. right. left. reflexivity.
  - apply (Hupper ["python.exe"] (FileEntry "MZ")); [left; reflexivity |].
    vm_compute. discriminate.
  - apply (Hlast [(["python.exe"], FileEntry "MZ");
                  (["python310._pth"],
                   FileEntry ("python310.zip" +:+ Sample.crlf +:+ "." +:+ Sample.crlf));
                  (["Lib"], DirEntry)]
             ["Lib"; "site.py"] "import sys" []); [reflexivity |].
    intros content' [].
Defined.



(** ** Downloading *)

Lemma download_file_run (E : Env) (url : string) (dest : Path) (w : World) :
  download_file E url dest w
  = let w1 := mkWorld (fs w)
                (events w ++ [EvPrint ("Downloading " +:+ url +:+ "...");
                              EvUrlretrieve url dest]) in
    match urlopen E url with
    | Body data =>
        match fs_write dest data (fs w) with
        | inr f' =>
            (Returned tt,
             mkWorld f' (events w1 ++ [EvPrint ("Downloaded to " +:+ str E dest)]))
        | inl e => (Raised e, w1)
        end
    | ShortBody data =>
        match fs_write dest data (fs w) with
        | inr f' => (Raised (ContentTooShortError url), mkWorld f' (events w1))
        | inl e => (Raised e, w1)
        end
    | Unreachable => (Raised (URLError url), w1)
    end.
Proof.
  unfold download_file. unfold_lib. tidy.
  destruct (urlopen E url) as [data | data |]; [| | reflexivity];
    simpl; destruct (fs_write dest data (fs w)); now tidy.
Qed.

(** X4: [download_file] prints "Downloaded to" only when it returns, and
    then the target holds exactly the body that was served and nothing
    else has changed; a body cut short is written to the target all the
    same before the error is raised, and nothing removes it. *)
Theorem download_file_outcomes (E : Env) (url : string) (dest : Path) (w : World) :
  let r := download_file E url dest w in
  let started := [EvPrint ("Downloading " +:+ url +:+ "..."); EvUrlretrieve url dest] in
  (fst r = Returned tt ->
     since w (snd r) = started ++ [EvPrint ("Downloaded to " +:+ str E dest)]
     /\ exists data, urlopen E url = Body data
                     /\ fs (snd r) = <[dest := File data]> (fs w))
  /\ (fst r <> Returned tt -> since w (snd r) = started)
  /\ (forall data, urlopen E url = ShortBody data ->
        fs w !! parent dest = Some Dir -> fs w !! dest <> Some Dir ->
        fst r = Raised (ContentTooShortError url)
        /\ fs (snd r) !! dest = Some (File data)).
Proof.
  cbn zeta. rewrite download_file_run. cbn zeta.
  split; [| split].
  - destruct (urlopen E url) as [data | data |]; try discriminate;
      destruct (fs_write dest data (fs w)) as [e | f'] eqn:Hw; try discriminate.
    intros _. cbn [fst snd fs events]. rewrite <- app_assoc, since_app.
    split; [reflexivity |]. exists data. split; [reflexivity |].
    now apply fs_write_inr in Hw.
  - destruct (urlopen E url) as [data | data |];
      try destruct (fs_write dest data (fs w)) as [e | f'];
      cbn [fst snd events]; rewrite ?since_app; try reflexivity.
    intros H. now contradiction H.
  - intros data -> Hpar Hnd. rewrite fs_write_ok by assumption.
    cbn [fst snd fs]. split; [reflexivity | apply lookup_insert_eq].
Qed.

Lemma download_file_outcomes_witness :
  let r := download_file Faults.short_pip get_pip_url (pip_script Faults.short_pip)
             Sample.world in
  fst r = Raised (ContentTooShortError get_pip_url)
  /\ fs (snd r) !! pip_script Faults.short_pip = Some (File "#!/usr/bin").
Proof.
  destruct (download_file_outcomes Faults.short_pip get_pip_url
              (pip_script Faults.short_pip) Sample.world) as (_ & _ & H).
  apply (H "#!/usr/bin"); [reflexivity | reflexivity | vm_compute; discriminate].
Defined.

(** ** Fetching the runtime *)

Lemma unlink_run (p : Path) (w : World) :
  unlink p w
  = let w1 := mkWorld (fs w) (events w ++ [EvUnlink p]) in
    match fs w !! p with
    | Some (File _) => (Returned tt, mkWorld (delete p (fs w)) (events w1))
    | Some Dir => (Raised (IsADirectoryError p), w1)
    | None => (Raised (FileNotFoundError p), w1)
    end.
Proof. unfold_lib. now repeat case_match. Qed.

Lemma python_zip_outside (E : Env) : ~ python_dir E `prefix_of` python_zip E.
Proof.
  intros [k H]. revert H.
  unfold python_dir, python_zip, portable_dir, joinpath.
  rewrite <- !app_assoc. intros H. apply app_inv_head in H.
  cbn in H. discriminate H.
Qed.

Lemma python_zip_not_above (E : Env) : ~ python_zip E `prefix_of` python_dir E.
Proof.
  intros [k H]. revert H.
  unfold python_dir, python_zip, portable_dir, joinpath.
  rewrite <- !app_assoc. intros H. apply app_inv_head in H.
  cbn in H. discriminate H.
Qed.

Lemma member_not_python_zip_nil (E : Env) : python_zip E <> python_dir E.
Proof. path_neq. Qed.

Lemma member_not_python_zip (E : Env) (rel : Path) :
  python_zip E <> python_dir E ++ rel.
Proof.
  intros H. apply (python_zip_outside E). exists rel. exact H.
Qed.

Lemma fetch_runtime_returned (E : Env) (url : string) (w w' : World) :
  fetch_runtime E url (portable_dir E) (python_dir E) w = (Returned tt, w') ->
  exists data members f2,
    urlopen E url = Body data
    /\ zip_members E data = Some members
    /\ fs_steps (map (fs_extract_member (python_dir E)) members)
         (<[python_zip E := File data]> (fs w)) = (None, f2)
    /\ w' = mkWorld (delete (python_zip E) f2)
              (events w ++
               [EvPrint ("Downloading " +:+ url +:+ "...");
                EvUrlretrieve url (python_zip E);
                EvPrint ("Downloaded to " +:+ str E (python_zip E));
                EvPrint ("Extracting " +:+ str E (python_zip E) +:+ "...");
                EvExtractall (python_zip E) (python_dir E);
                EvPrint ("Extracted to " +:+ str E (python_dir E));
                EvUnlink (python_zip E)]).
Proof.
  unfold fetch_runtime. fold (python_zip E).
  unfold bind at 1. rewrite download_file_run. cbn zeta.
  destruct (urlopen E url) as [data | data |] eqn:Hurl;
    try (try destruct (fs_write _ _ _); discriminate).
  destruct (fs_write (python_zip E) data (fs w)) as [e | f1] eqn:Hw; [discriminate |].
  apply fs_write_inr in Hw. subst f1.
  unfold bind at 1. rewrite extract_zip_run. cbn zeta. cbn [fs events].
  rewrite lookup_insert_eq.
  destruct (zip_members E data) as [members |] eqn:Hm; [| discriminate].
  destruct (fs_steps _ _) as [[e |] f2] eqn:Hseq; [discriminate |].
  rewrite unlink_run. cbn zeta. cbn [fs events].
  assert (Hzip : f2 !! python_zip E = Some (File data)).
  { replace f2 with (snd (fs_steps (map (fs_extract_member (python_dir E)) members)
                            (<[python_zip E := File data]> (fs w))))
      by now rewrite Hseq.
    rewrite fs_extract_members_unrelated;
      [apply lookup_insert_eq | apply python_zip_outside | apply python_zip_not_above]. }
  rewrite Hzip. intros H. injection H as <-.
  exists data, members, f2.
  split; [reflexivity |]. split; [exact Hm |]. split; [exact Hseq |].
  now rewrite <- !app_assoc.
Qed.

(** X5: when [fetch_runtime] returns, the archive it downloaded is gone
    again, every file member of it is a regular file below the runtime
    directory and every directory member is a directory there, and the
    calls were, in this order: download, unpack, delete. *)
Theorem fetch_runtime_removes_archive (E : Env) (url : string) (w : World) :
  fst (fetch_runtime E url (portable_dir E) (python_dir E) w) = Returned tt ->
  let w' := snd (fetch_runtime E url (portable_dir E) (python_dir E) w) in
  fs w' !! python_zip E = None
  /\ since w w'
     = [EvPrint ("Downloading " +:+ url +:+ "...");
        EvUrlretrieve url (python_zip E);
        EvPrint ("Downloaded to " +:+ str E (python_zip E));
        EvPrint ("Extracting " +:+ str E (python_zip E) +:+ "...");
        EvExtractall (python_zip E) (python_dir E);
        EvPrint ("Extracted to " +:+ str E (python_dir E));
        EvUnlink (python_zip E)]
  /\ exists data members,
       urlopen E url = Body data
       /\ zip_members E data = Some members
       /\ (forall rel content, In (rel, FileEntry content) members ->
             is_file (fs w') (python_dir E ++ rel))
       /\ (forall rel, In (rel, DirEntry) members ->
             fs w' !! (python_dir E ++ rel) = Some Dir).
Proof.
  destruct (fetch_runtime E url (portable_dir E) (python_dir E) w) as [o w'] eqn:Hr.
  cbn [fst snd]. intros ->.
  destruct (fetch_runtime_returned E url w w' Hr)
    as (data & members & f2 & Hurl & Hm & Hseq & ->).
  cbn [fs]. split; [apply lookup_delete_eq |]. split; [apply since_app |].
  exists data, members. split; [exact Hurl |]. split; [exact Hm |].
  destruct (fs_extract_members_done _ members [] _ f2 Hseq) as (Hfiles & Hdirs & _).
  cbn [map fs_steps snd] in Hfiles, Hdirs. split.
  - intros rel content Hin. destruct (Hfiles rel content Hin) as [c Hc].
    exists c. rewrite lookup_delete_ne; [exact Hc | apply member_not_python_zip].
  - intros rel Hin.
    rewrite lookup_delete_ne; [now apply Hdirs | apply member_not_python_zip].
Qed.

Lemma fetch_runtime_removes_archive_witness :
  let w' := snd (fetch_runtime Sample.windows python_url_amd64
                   (portable_dir Sample.windows) (python_dir Sample.windows)
                   Faults.junk_downloaded) in
  fs w' !! python_zip Sample.windows = None
  /\ is_file (fs w') (python_exe Sample.windows)
  /\ fs w' !! (python_dir Sample.windows ++ ["Lib"]) = Some Dir.
Proof.
  destruct (fetch_runtime_removes_archive Sample.windows python_url_amd64
              Faults.junk_downloaded)
    as (Hgone & _ & data & members & Hurl & Hm & Hfiles & Hdirs);
    [vm_compute; reflexivity |].
  assert (data = "PK-amd64") as ->
    by (vm_compute in Hurl; injection Hurl as <-; reflexivity).
  assert (members = Sample.archive) as ->
    by (vm_compute in Hm; injection Hm as <-; reflexivity).
  split; [exact Hgone |]. split.
  - apply (Hfiles ["python.exe"] "MZ"). left. reflexivity.
  - apply (Hdirs ["Lib"]). right. right. left. reflexivity.
Defined.

(** X6: when what was downloaded is not a zip archive, [fetch_runtime]
    raises [BadZipFile] and leaves the download on disk: nothing deletes
    [python.zip] on this path. *)
Theorem fetch_runtime_keeps_bad_archive (E : Env) (url data : string) (w : World) :
  urlopen E url = Body data ->
  zip_members E data = None ->
  fs w !! portable_dir E = Some Dir ->
  fs w !! python_zip E <> Some Dir ->
  fetch_runtime E url (portable_dir E) (python_dir E) w
  = (Raised (BadZipFile (python_zip E)),
     mkWorld (<[python_zip E := File data]> (fs w))
       (events w ++
        [EvPrint ("Downloading " +:+ url +:+ "...");
         EvUrlretrieve url (python_zip E);
         EvPrint ("Downloaded to " +:+ str E (python_zip E));
         EvPrint ("Extracting " +:+ str E (python_zip E) +:+ "...");
         EvExtractall (python_zip E) (python_dir E)])).
Proof.
  intros Hurl Hbad Hdir Hnd.
  unfold fetch_runtime. fold (python_zip E).
  unfold bind at 1. rewrite download_file_run. cbn zeta. rewrite Hurl.
  rewrite fs_write_ok;
    [| unfold python_zip; now rewrite parent_joinpath | assumption].
  unfold bind at 1. rewrite extract_zip_run. cbn zeta. cbn [fs events].
  rewrite lookup_insert_eq, Hbad. now rewrite <- !app_assoc.
Qed.

Lemma fetch_runtime_keeps_bad_archive_witness :
  let r := fetch_runtime Faults.junk_archive python_url_amd64
             (portable_dir Faults.junk_archive) (python_dir Faults.junk_archive)
             Sample.world in
  fst r = Raised (BadZipFile (python_zip Faults.junk_archive))
  /\ fs (snd r) !! python_zip Faults.junk_archive = Some (File "<html>").
Proof.
  cbn zeta.
  rewrite (fetch_runtime_keeps_bad_archive Faults.junk_archive python_url_amd64 "<html>");
    [| reflexivity | reflexivity | reflexivity | vm_compute; discriminate].
  split; [reflexivity | apply lookup_insert_eq].
Defined.

(** ** More on the path file *)

(** Each kind of line ending, and a carriage return at the end. *)
Example universal_newlines_sample :
  universal_newlines
    ("a" +:+ String cr "b" +:+ Sample.crlf +:+ "c" +:+ nl +:+ String cr "")
  = "a" +:+ nl +:+ "b" +:+ nl +:+ "c" +:+ nl +:+ nl.
Proof. reflexivity. Qed.







(** X8: a directory named [python310._pth] counts as present: the step then
    raises when it opens it for reading, with the file system as it was and
    nothing written. *)
Theorem configure_pth_on_directory (E : Env) (prefix : string) (dir : Path)
  (w : World) :
  fs w !! (dir // "python310._pth") = Some Dir ->
  configure_pth E prefix dir w
  = (Raised (IsADirectoryError (dir // "python310._pth")),
     mkWorld (fs w)
       (events w ++ [EvExists (dir // "python310._pth");
                     EvRead (dir // "python310._pth")])).
Proof.
  intros H. unfold configure_pth. unfold_lib. rewrite H. simpl. rewrite H.
  now tidy.
Qed.

Lemma configure_pth_on_directory_witness :
  fst (configure_pth Sample.windows Sample.prefix (python_dir Sample.windows)
         Faults.pth_is_directory)
  = Raised (IsADirectoryError (pth_file Sample.windows)).
Proof.
  rewrite (configure_pth_on_directory Sample.windows Sample.prefix
             (python_dir Sample.windows) Faults.pth_is_directory); [reflexivity |].
  vm_compute. reflexivity.
Defined.

(** ** More on the batch files *)

(** X9: [create_activation_scripts] touches the two batch files and nothing
    else, whether it returns or raises. *)
Theorem create_activation_scripts_frame (E : Env) (w : World) (q : Path) :
  q <> activate_bat E -> q <> deactivate_bat E ->
  fs (snd (create_activation_scripts E w)) !! q = fs w !! q.
Proof.
  intros Ha Hd. revert w. change (preserves q (create_activation_scripts E)).
  unfold create_activation_scripts.
  apply preserves_bind; [now apply preserves_write_text | intros _].
  apply preserves_bind; [now apply preserves_write_text | intros _].
  apply preserves_bind; [apply preserves_print | intros _].
  apply preserves_bind; [apply preserves_print | intros _].
  apply preserves_print.
Qed.

Lemma create_activation_scripts_frame_witness :
  fs (snd (create_activation_scripts Sample.windows Sample.world))
    !! requirements_file Sample.windows
  = Some (File "requests").
Proof.
  rewrite (create_activation_scripts_frame Sample.windows Sample.world);
    [reflexivity | vm_compute; discriminate | vm_compute; discriminate].
Defined.

(** X10: the two batch files are not written together.  With a directory in
    the place of [deactivate_portable.bat] the step raises, but only after
    it has written [activate_portable.bat]; and without the project root
    directory it raises at the first file and writes nothing. *)
Theorem create_activation_scripts_partial (E : Env) (w : World) :
  let text := activate_bat_text (str E (project_root E)) (str E (python_dir E)) in
  let r := create_activation_scripts E w in
  (fs w !! project_root E = Some Dir ->
   fs w !! activate_bat E <> Some Dir ->
   fs w !! deactivate_bat E = Some Dir ->
   r = (Raised (IsADirectoryError (deactivate_bat E)),
        mkWorld (<[activate_bat E := File text]> (fs w))
          (events w ++ [EvWrite (activate_bat E) text;
                        EvWrite (deactivate_bat E) deactivate_bat_text])))
  /\ (fs w !! project_root E = None ->
      fs w !! activate_bat E = None ->
      r = (Raised (FileNotFoundError (activate_bat E)),
           mkWorld (fs w) (events w ++ [EvWrite (activate_bat E) text]))).
Proof.
  intros text r. subst r. unfold create_activation_scripts.
  fold (activate_bat E) (deactivate_bat E) (portable_dir E). fold (python_dir E).
  fold text. split.
  - intros Hroot Ha Hd.
    unfold bind at 1. rewrite write_text_ok;
      [| unfold activate_bat; now rewrite parent_joinpath | assumption].
    unfold bind at 1. unfold write_text, lift_fs, fs_write. unfold_lib.
    rewrite lookup_insert_ne by apply scripts_differ. rewrite Hd. now tidy.
  - intros Hroot Ha.
    unfold bind at 1. unfold write_text, lift_fs, fs_write. unfold_lib.
    rewrite Ha. unfold activate_bat at 1. rewrite parent_joinpath, Hroot.
    reflexivity.
Qed.

Lemma create_activation_scripts_partial_witness :
  let r := create_activation_scripts Sample.windows Faults.deactivate_is_directory in
  fst r = Raised (IsADirectoryError (deactivate_bat Sample.windows))
  /\ is_file (fs (snd r)) (activate_bat Sample.windows).
Proof.
  destruct (create_activation_scripts_partial Sample.windows
              Faults.deactivate_is_directory) as [H _].
  cbn zeta in *. rewrite H;
    [| vm_compute; reflexivity | vm_compute; discriminate | vm_compute; reflexivity].
  split; [reflexivity |]. eexists. apply lookup_insert_eq.
Defined.

(** ** More on the directories *)

(** X11: making the directories a second time changes nothing: when
    [make_directories] has returned, it returns again from the world it
    left, with the same file system. *)
Theorem make_directories_idempotent (E : Env) (w : World) :
  fst (make_directories (portable_dir E) (python_dir E) w) = Returned tt ->
  let w1 := snd (make_directories (portable_dir E) (python_dir E) w) in
  let again := make_directories (portable_dir E) (python_dir E) w1 in
  fst again = Returned tt /\ fs (snd again) = fs w1.
Proof.
  pose proof (make_directories_run E w) as Hrun.
  destruct (make_directories (portable_dir E) (python_dir E) w) as [[[] | e] w1];
    [| discriminate].
  intros _. cbn [snd]. destruct Hrun as [Hfs _].
  assert (Hcan : directories_can_be_made E (fs w1)).
  { rewrite Hfs. split; left; apply dirs_exist_after. }
  rewrite (make_directories_ok E w1 Hcan). cbn [fst snd fs].
  split; [reflexivity |].
  assert (Hp : fs w1 !! portable_dir E = Some Dir)
    by (rewrite Hfs; apply dirs_exist_after).
  assert (Hy : fs w1 !! python_dir E = Some Dir)
    by (rewrite Hfs; apply dirs_exist_after).
  rewrite (insert_id _ _ _ Hp). now apply insert_id.
Qed.

Lemma make_directories_idempotent_witness :
  let w1 := snd (make_directories (portable_dir Sample.windows)
                   (python_dir Sample.windows) Sample.world) in
  fs (snd (make_directories (portable_dir Sample.windows)
             (python_dir Sample.windows) w1)) = fs w1.
Proof.
  apply (make_directories_idempotent Sample.windows Sample.world).
  vm_compute. reflexivity.
Defined.

(** X12: a regular file in the place of the runtime directory stops the whole
    run at once: [setup_portable_python] raises [FileExistsError] after the
    banner and the two [mkdir] calls, without asking for the platform and
    without changing the file system. *)
Theorem setup_blocked_by_file (E : Env) (prefix : string) (w : World) (data : string) :
  fs w !! portable_dir E = Some Dir ->
  fs w !! python_dir E = Some (File data) ->
  setup_portable_python E prefix w
  = (Raised (FileExistsError (python_dir E)),
     mkWorld (fs w)
       (events w ++ [banner E; EvMkdir (portable_dir E); EvMkdir (python_dir E)])).
Proof.
  intros Hp Hy. apply setup_directories_raised.
  unfold make_directories, bind. rewrite mkdir_exist_ok_run.
  rewrite fs_mkdir_can by now left. rewrite (insert_id _ _ _ Hp).
  rewrite mkdir_exist_ok_run. cbn [fs events].
  unfold fs_mkdir. rewrite Hy. now tidy.
Qed.

Lemma setup_blocked_by_file_witness :
  fst (setup_portable_python Sample.windows Sample.prefix Faults.python_is_file)
  = Raised (FileExistsError (python_dir Sample.windows)).
Proof.
  rewrite (setup_blocked_by_file Sample.windows Sample.prefix
             Faults.python_is_file "oops");
    [reflexivity | vm_compute; reflexivity | vm_compute; reflexivity].
Defined.

(** ** More on the installer bootstrap *)

Lemma install_pip_present (E : Env) (w : World) (node : Node) :
  fs w !! pip_script E = Some node ->
  install_pip E (portable_dir E) (python_dir E) w
  = let w1 := mkWorld (fs w)
                (events w ++ [EvExists (pip_script E); EvPrint "Installing pip...";
                              EvRun (bootstrap_argv E)]) in
    match run_process E (bootstrap_argv E) (fs w) with
    | Some (_, f') => (Returned tt, mkWorld f' (events w1))
    | None => (Raised (OSError (bootstrap_argv E)), w1)
    end.
Proof.
  intros H. unfold install_pip.
  fold (pip_script E) (python_exe E). fold (bootstrap_argv E).
  unfold_lib. rewrite H. cbn.
  destruct (run_process E (bootstrap_argv E) (fs w)) as [[st f'] |]; now tidy.
Qed.

(** X13: a download of [get-pip.py] that is cut short stops the bootstrap
    before the installer is started, but the partial file stays; the next
    bootstrap finds it, fetches nothing, and starts the installer on it. *)
Theorem short_get_pip_is_reused (E : Env) (w : World) (data : string) :
  fs w !! pip_script E = None ->
  fs w !! portable_dir E = Some Dir ->
  urlopen E get_pip_url = ShortBody data ->
  let first := install_pip E (portable_dir E) (python_dir E) w in
  let second := install_pip E (portable_dir E) (python_dir E) (snd first) in
  fst first = Raised (ContentTooShortError get_pip_url)
  /\ (forall argv, ~ In (EvRun argv) (since w (snd first)))
  /\ fs (snd first) !! pip_script E = Some (File data)
  /\ since (snd first) (snd second)
     = [EvExists (pip_script E); EvPrint "Installing pip...";
        EvRun (bootstrap_argv E)].
Proof.
  intros Habs Hdir Hshort first second.
  assert (H1 : first
               = (Raised (ContentTooShortError get_pip_url),
                  mkWorld (<[pip_script E := File data]> (fs w))
                    (events w ++ [EvExists (pip_script E);
                                  EvPrint "Downloading get-pip.py...";
                                  EvUrlretrieve get_pip_url (pip_script E)]))).
  { subst first. unfold install_pip. fold (pip_script E).
    unfold_lib. rewrite Habs. cbn. rewrite Hshort. simpl.
    rewrite fs_write_ok;
      [| unfold pip_script; now rewrite parent_joinpath | now rewrite Habs].
    now tidy. }
  assert (Hfile : fs first.2 !! pip_script E = Some (File data))
    by (rewrite H1; apply lookup_insert_eq).
  split; [now rewrite H1 |]. split.
  - intros argv. rewrite H1. cbn [snd]. rewrite since_app.
    cbn. intuition discriminate.
  - split; [exact Hfile |].
    subst second. rewrite (install_pip_present E first.2 _ Hfile). cbn zeta.
    destruct (run_process E (bootstrap_argv E) (fs first.2)) as [[st f'] |];
      cbn [snd events]; apply since_app.
Qed.

Lemma short_get_pip_is_reused_witness :
  let first := install_pip Faults.short_pip (portable_dir Faults.short_pip)
                 (python_dir Faults.short_pip) Sample.world in
  fst first = Raised (ContentTooShortError get_pip_url)
  /\ fs (snd first) !! pip_script Faults.short_pip = Some (File "#!/usr/bin").
Proof.
  destruct (short_get_pip_is_reused Faults.short_pip Sample.world "#!/usr/bin")
    as (H1 & _ & H3 & _); [reflexivity | reflexivity | reflexivity |].
  split; [exact H1 | exact H3].
Defined.

(** ** The run as a whole *)

Lemma get_python_download_url_values (E : Env) (w : World) :
  exists u,
    get_python_download_url E w
    = (Returned u,
       mkWorld (fs w) (events w ++ [EvPlatform "system"; EvPlatform "machine"]))
    /\ (u = None \/ u = Some python_url_amd64 \/ u = Some python_url_win32).
Proof.
  unfold get_python_download_url. unfold_lib. tidy.
  repeat case_match; eauto.
Qed.

Ltac own_call :=
  cbn [script_call];
  unfold bootstrap_argv, install_argv, pip_install_argv, pth_file, pip_script,
    requirements_file, activate_bat, deactivate_bat, python_zip, python_exe,
    python_dir, portable_dir;
  first [ exact I | reflexivity | tauto | intuition reflexivity ].

Ltac each_call :=
  unfold diagnostics, banner; cbn [app];
  repeat (constructor; [solve [cbn; auto] |]); constructor.

Lemma provision_calls (E : Env) (prefix url : string) :
  url = python_url_amd64 \/ url = python_url_win32 ->
  emits (script_call E) (provision E prefix url).
Proof.
  intros Hurl.
  unfold provision, fetch_runtime, download_file, extract_zip, configure_pth,
    install_pip.
  emits_script own_call.
Qed.

Lemma install_requirements_calls (E : Env) :
  emits (script_call E) (install_requirements E (project_root E) (python_dir E)).
Proof.
  unfold install_requirements, create_activation_scripts.
  emits_script own_call.
Qed.

(** X14: whatever the environment, the run makes no call but its own: it
    makes, probes, reads, writes, fetches, unpacks, deletes and runs only
    the fixed paths, URLs and command lines listed in [script_call]; in
    particular it deletes nothing but [python.zip] and writes nothing but
    [python310._pth] and the two batch files. *)
Theorem setup_makes_only_its_calls (E : Env) (prefix : string) (w : World) :
  Forall (script_call E) (since w (snd (setup_portable_python E prefix w))).
Proof.
  pose proof (make_directories_run E (mkWorld (fs w) (events w ++ [banner E]))) as Hrun.
  destruct (make_directories _ _ _) as [[[] | e] w1] eqn:Hmk; cbn [fs events] in Hrun.
  - destruct Hrun as [Hfs Hev].
    destruct (get_python_download_url_values E w1) as (u & Hu & Hval).
    rewrite (setup_after_directories E prefix w w1 u Hmk Hu).
    assert (Hhead : Forall (script_call E)
                      [banner E; EvMkdir (portable_dir E); EvMkdir (python_dir E);
                       EvPlatform "system"; EvPlatform "machine"])
      by each_call.
    assert (Hquiet : Forall (script_call E)
                       (since w (mkWorld (fs w1) (events w1 ++ diagnostics)))).
    { erewrite since_events by (cbn [events]; rewrite Hev, <- !app_assoc; reflexivity).
      each_call. }
    destruct Hval as [-> | Hval]; [exact Hquiet |].
    assert (exists c url, u = Some (String c url)
                          /\ (String c url = python_url_amd64
                              \/ String c url = python_url_win32))
      as (c & url & -> & Hurl)
      by (destruct Hval as [-> | ->]; eexists _, _; split; eauto).
    set (w2 := mkWorld (fs w1) (events w1 ++ [EvPlatform "system"; EvPlatform "machine"])).
    destruct (provision_calls E prefix (String c url) Hurl w2) as (l & Hl & HP).
    destruct (provision E prefix (String c url) w2) as [[[] | e] w5]; cbn [snd] in Hl.
    + destruct (install_requirements_calls E w5) as (l' & Hl' & HP').
      erewrite since_events
        by (rewrite Hl', Hl; subst w2; cbn [events];
            rewrite Hev, <- !app_assoc; reflexivity).
      cbn [app] in Hhead |- *. rewrite !Forall_cons in *.
      repeat split; try tauto. now apply Forall_app.
    + erewrite since_events
        by (cbn [snd]; rewrite Hl; subst w2; cbn [events];
            rewrite Hev, <- !app_assoc; reflexivity).
      cbn [app] in Hhead |- *. rewrite !Forall_cons in *.
      repeat split; try tauto.
  - rewrite (setup_directories_raised E prefix w w1 e Hmk). cbn [snd].
    destruct Hrun as [_ [Hev | Hev]];
      (erewrite since_events by (rewrite Hev, <- !app_assoc; reflexivity));
      each_call.
Qed.

Ltac prefix_of_longer := first [reflexivity | apply prefix_app_r; prefix_of_longer].

Ltac below_portable H :=
  let Heq := fresh in
  intros Heq; apply H; rewrite Heq;
  unfold pth_file, pip_script, python_zip, python_exe, python_dir, joinpath;
  prefix_of_longer.

Ltac preserves_script H :=
  repeat first
    [ assumption
    | apply preserves_ret | apply preserves_raise | apply preserves_print
    | apply preserves_emit
    | apply preserves_path_exists | apply preserves_read_text
    | apply preserves_unlink; below_portable H
    | apply preserves_mkdir; below_portable H
    | apply preserves_write_text; first [assumption | below_portable H]
    | apply preserves_urlretrieve; below_portable H
    | apply preserves_subprocess_run; assumption
    | apply preserves_bind
    | progress intros
    | progress cbv zeta
    | match goal with
      | |- preserves _ (match ?x with _ => _ end) => destruct x
      | |- preserves _ (if ?x then _ else _) => destruct x
      end ].

Lemma preserves_download_file q E url p :
  q <> p -> preserves q (download_file E url p).
Proof.
  intros Hne. unfold download_file.
  apply preserves_bind; [apply preserves_print | intros _].
  apply preserves_bind; [now apply preserves_urlretrieve | intros _].
  apply preserves_print.
Qed.

Lemma extract_zip_inside (E : Env) (z d q : Path) (w : World) :
  fs w !! d <> None -> fs w !! parent d <> None -> ~ d `prefix_of` q ->
  fs (snd (extract_zip E z d w)) !! q = fs w !! q.
Proof.
  intros Hd Hpd Hq.
  destruct (extract_zip_fs E z d w) as [-> | (data & members & _ & _ & ->)];
    [reflexivity |].
  now apply fs_extract_members_inside.
Qed.

(** With both directories made, fetching the runtime changes nothing
    outside [portable_python]. *)
Lemma fetch_runtime_preserves (E : Env) (url : string) (q : Path) (w : World) :
  fs w !! python_dir E <> None -> fs w !! portable_dir E <> None ->
  ~ portable_dir E `prefix_of` q ->
  fs (snd (fetch_runtime E url (portable_dir E) (python_dir E) w)) !! q = fs w !! q.
Proof.
  intros Hy Hp Hq. unfold fetch_runtime. fold (python_zip E).
  assert (Hzip : q <> python_zip E) by below_portable Hq.
  assert (Hd : forall r, r <> python_zip E ->
                 fs (snd (download_file E url (python_zip E) w)) !! r = fs w !! r)
    by (intros r Hr; now apply preserves_download_file).
  unfold bind at 1.
  destruct (download_file E url (python_zip E) w) as [[[] | e] w1];
    cbn [snd] in Hd |- *; [| now apply Hd].
  assert (Hx : fs (snd (extract_zip E (python_zip E) (python_dir E) w1)) !! q
               = fs w1 !! q).
  { apply extract_zip_inside.
    - rewrite Hd; [assumption | apply not_eq_sym, member_not_python_zip_nil].
    - rewrite parent_python_dir, Hd; [assumption |].
      unfold python_zip. intros H. apply (f_equal length) in H.
      unfold joinpath in H. rewrite length_app in H. simpl in H. lia.
    - intros H. apply Hq. etrans; [| exact H].
      unfold python_dir, joinpath. prefix_of_longer. }
  unfold bind at 1.
  destruct (extract_zip E (python_zip E) (python_dir E) w1) as [[[] | e] w2];
    cbn [snd] in Hx |- *; [| now rewrite Hx, Hd].
  rewrite preserves_unlink by assumption. now rewrite Hx, Hd.
Qed.

Lemma provision_preserves (E : Env) (prefix url : string) (q : Path) (w : World) :
  fs w !! python_dir E <> None -> fs w !! portable_dir E <> None ->
  ~ portable_dir E `prefix_of` q ->
  children_preserve E q ->
  fs (snd (provision E prefix url w)) !! q = fs w !! q.
Proof.
  intros Hy Hp Hq Hc. unfold provision. unfold bind at 1.
  pose proof (fetch_runtime_preserves E url q w Hy Hp Hq) as H1.
  destruct (fetch_runtime _ _ _ _ _) as [[[] | e] w1]; cbn [snd] in H1 |- *;
    [| exact H1].
  rewrite <- H1. revert w1 H1. intros w1 _. revert w1.
  change (preserves q (configure_pth E prefix (python_dir E) ;;
                       install_pip E (portable_dir E) (python_dir E))).
  unfold configure_pth, install_pip.
  preserves_script Hq.
Qed.

Lemma install_requirements_preserves (E : Env) (q : Path) (w : World) :
  q <> activate_bat E -> q <> deactivate_bat E ->
  children_preserve E q ->
  fs (snd (install_requirements E (project_root E) (python_dir E) w)) !! q
  = fs w !! q.
Proof.
  intros Ha Hd Hc. revert w.
  change (preserves q (install_requirements E (project_root E) (python_dir E))).
  unfold install_requirements, create_activation_scripts.
  fold (portable_dir E). fold (python_dir E). fold (activate_bat E) (deactivate_bat E).
  assert (Hq : ~ q `prefix_of` q -> False) by (intros H; now apply H).
  preserves_script Hq.
Qed.

(** X15: the run changes nothing outside [portable_python] but the two batch
    files: a path that is not [portable_python] or below it, is neither
    batch file, and is left alone by the child processes, leads to the same
    thing after the run as before, whether the run returns or raises.  So
    [requirements.txt] is only ever looked for, never changed. *)
Theorem setup_changes_only_its_own (E : Env) (prefix : string) (w : World) (q : Path) :
  ~ portable_dir E `prefix_of` q ->
  q <> activate_bat E ->
  q <> deactivate_bat E ->
  children_preserve E q ->
  fs (snd (setup_portable_python E prefix w)) !! q = fs w !! q.
Proof.
  intros Hq Ha Hd Hc.
  assert (Hportable : q <> portable_dir E) by (intros ->; now apply Hq).
  assert (Hpython : q <> python_dir E) by below_portable Hq.
  pose proof (make_directories_run E (mkWorld (fs w) (events w ++ [banner E]))) as Hrun.
  destruct (make_directories _ _ _) as [[[] | e] w1] eqn:Hmk; cbn [fs events] in Hrun.
  - destruct Hrun as [Hfs _].
    assert (H1 : fs w1 !! q = fs w !! q)
      by (rewrite Hfs, !lookup_insert_ne by congruence; reflexivity).
    destruct (get_python_download_url_values E w1) as (u & Hu & _).
    rewrite (setup_after_directories E prefix w w1 u Hmk Hu).
    destruct u as [[| c url] |]; try exact H1.
    set (w2 := mkWorld (fs w1) (events w1 ++ [EvPlatform "system"; EvPlatform "machine"])).
    assert (H2 : fs (snd (provision E prefix (String c url) w2)) !! q = fs w !! q).
    { rewrite provision_preserves; try assumption; subst w2; cbn [fs]; rewrite Hfs.
      - rewrite lookup_insert_eq. discriminate.
      - rewrite lookup_insert_ne by apply not_eq_sym, dirs_differ.
        rewrite lookup_insert_eq. discriminate. }
    destruct (provision E prefix (String c url) w2) as [[[] | e] w3];
      cbn [snd] in H2 |- *; [| exact H2].
    rewrite <- H2. now apply install_requirements_preserves.
  - rewrite (setup_directories_raised E prefix w w1 e Hmk). cbn [snd].
    destruct Hrun as [[-> | ->] _]; [reflexivity |].
    now rewrite lookup_insert_ne by congruence.
Qed.

Lemma sample_child_preserves_requirements :
  children_preserve Sample.windows (requirements_file Sample.windows).
Proof.
  intros argv f st f' H. unfold Sample.windows, Sample.child in H.
  cbn [run_process] in H.
  destruct argv as [| a1 [| a2 [| a3 [| a4 rest]]]]; injection H as <- <-;
    try reflexivity.
  now rewrite lookup_insert_ne by (vm_compute; discriminate).
Qed.

Lemma setup_changes_only_its_own_witness :
  fs (snd (setup_portable_python Sample.windows Sample.prefix Sample.world))
    !! requirements_file Sample.windows
  = Some (File "requests").
Proof.
  rewrite (setup_changes_only_its_own Sample.windows Sample.prefix Sample.world).
  - reflexivity.
  - intros [k H]. cbv in H. discriminate H.
  - vm_compute. discriminate.
  - vm_compute. discriminate.
  - exact sample_child_preserves_requirements.
Defined.

(** ** A successful run *)

Lemma create_activation_scripts_returned (E : Env) (w : World) :
  fst (create_activation_scripts E w) = Returned tt ->
  create_activation_scripts E w
  = (Returned tt,
     mkWorld (<[deactivate_bat E := File deactivate_bat_text]>
                (<[activate_bat E :=
                     File (activate_bat_text (str E (project_root E))
                             (str E (python_dir E)))]> (fs w)))
       (events w ++
        [EvWrite (activate_bat E)
           (activate_bat_text (str E (project_root E)) (str E (python_dir E)));
         EvWrite (deactivate_bat E) deactivate_bat_text;
         EvPrint "Activation scripts created:";
         EvPrint ("  - " +:+ str E (activate_bat E));
         EvPrint ("  - " +:+ str E (deactivate_bat E))])).
Proof.
  unfold create_activation_scripts.
  fold (activate_bat E) (deactivate_bat E) (portable_dir E). fold (python_dir E).
  set (text := activate_bat_text _ _).
  unfold write_text, lift_fs. unfold_lib.
  destruct (fs_write (activate_bat E) text (fs w)) as [e | f1] eqn:H1; simpl;
    [discriminate |].
  destruct (fs_write (deactivate_bat E) deactivate_bat_text f1) as [e | f2] eqn:H2;
    simpl; [discriminate |].
  intros _. apply fs_write_inr in H1, H2. subst f1 f2. now tidy.
Qed.

Lemma install_requirements_true (E : Env) (w : World) :
  fst (install_requirements E (project_root E) (python_dir E) w) = Returned true ->
  exists st f',
    run_process E (install_argv E) (fs w) = Some (st, f')
    /\ install_requirements E (project_root E) (python_dir E) w
       = (Returned true,
          mkWorld (<[deactivate_bat E := File deactivate_bat_text]>
                     (<[activate_bat E :=
                          File (activate_bat_text (str E (project_root E))
                                  (str E (python_dir E)))]> f'))
            (events w ++
             [EvExists (requirements_file E);
              EvPrint "Installing project dependencies...";
              EvRun (install_argv E)] ++ closing_calls E)).
Proof.
  unfold install_requirements.
  fold (requirements_file E) (python_exe E). fold (install_argv E).
  unfold bind at 1 3. unfold path_exists at 1 2. unfold_lib.
  destruct (fs w !! requirements_file E) as [node |]; cbn; [| discriminate].
  destruct (run_process E (install_argv E) (fs w)) as [[st f'] |] eqn:Hrun; cbn;
    [| discriminate].
  set (w3 := mkWorld f' _).
  destruct (create_activation_scripts E w3) as [[[] | e] w4] eqn:Hc;
    [| discriminate].
  intros _. exists st, f'. split; [reflexivity |].
  rewrite create_activation_scripts_returned in Hc by now rewrite Hc.
  injection Hc as <-. subst w3. cbn [fs events]. unfold closing_calls.
  now rewrite <- !app_assoc.
Qed.

Lemma provision_unlinks (E : Env) (prefix url : string) (w w' : World) :
  provision E prefix url w = (Returned tt, w') ->
  exists l, events w' = events w ++ l /\ In (EvUnlink (python_zip E)) l.
Proof.
  unfold provision. unfold bind at 1. intros H.
  destruct (fetch_runtime E url (portable_dir E) (python_dir E) w)
    as [[[] | e] w1] eqn:Hf; [| discriminate].
  destruct (fetch_runtime_returned E url w w1 Hf)
    as (data & members & f2 & _ & _ & _ & Hw1).
  subst w1.
  assert (Hrest : emits (fun _ => True)
                    (configure_pth E prefix (python_dir E) ;;
                     install_pip E (portable_dir E) (python_dir E))).
  { apply emits_bind; [apply extends_configure_pth | intros _].
    apply extends_install_pip. }
  match type of H with ?m ?w0 = _ => destruct (Hrest w0) as (l & Hl & _) end.
  rewrite H in Hl. cbn [snd events] in Hl.
  eexists. split; [rewrite Hl, <- app_assoc; reflexivity |].
  rewrite in_app_iff. left. cbn. tauto.
Qed.

(** X16: a run returns the success flag only on a supported platform and
    only after everything has run: the archive was deleted and the
    installer started, then the requirements were found and the dependency
    installation was started, and the run ended by writing the two batch
    files and printing its five closing lines.  The file system it leaves
    is the one the dependency installation left, with the two batch
    files. *)
Theorem success_means_everything_ran (E : Env) (prefix : string) (w : World) :
  fst (setup_portable_python E prefix w) = Returned true ->
  let w' := snd (setup_portable_python E prefix w) in
  supported E
  /\ (exists before,
        since w w'
        = before ++ [EvExists (requirements_file E);
                     EvPrint "Installing project dependencies...";
                     EvRun (install_argv E)] ++ closing_calls E
        /\ In (EvUnlink (python_zip E)) before
        /\ In (EvRun (bootstrap_argv E)) before)
  /\ (exists f st f',
        run_process E (install_argv E) f = Some (st, f')
        /\ fs w'
           = <[deactivate_bat E := File deactivate_bat_text]>
               (<[activate_bat E :=
                    File (activate_bat_text (str E (project_root E))
                            (str E (python_dir E)))]> f')).
Proof.
  cbn zeta.
  pose proof (make_directories_run E (mkWorld (fs w) (events w ++ [banner E]))) as Hrun.
  destruct (make_directories _ _ _) as [[[] | e] w1] eqn:Hmk; cbn [fs events] in Hrun;
    [| rewrite (setup_directories_raised E prefix w w1 e Hmk); discriminate].
  destruct Hrun as [Hfs Hev].
  destruct (decide (lower (platform_system E) = "windows")) as [Hs | Hs].
  2:{ rewrite (setup_after_directories E prefix w w1 _ Hmk
                 (get_python_download_url_unsupported E w1 Hs)).
      discriminate. }
  rewrite (setup_after_directories E prefix w w1 _ Hmk
             (get_python_download_url_supported E w1 Hs)).
  set (w2 := mkWorld (fs w1) (events w1 ++ [EvPlatform "system"; EvPlatform "machine"])).
  assert (Hurl : exists c url,
             (if is_64bit E then python_url_amd64 else python_url_win32) = String c url)
    by (destruct (is_64bit E); eexists _, _; reflexivity).
  destruct Hurl as (c & url & ->).
  destruct (provision E prefix (String c url) w2) as [[[] | e] w5] eqn:Hprov;
    [| discriminate].
  intros Htrue.
  destruct (install_requirements_true E w5 Htrue) as (st & f' & Hrunp & ->).
  cbn [snd fs].
  destruct (provision_returned E prefix _ _ _ Hprov)
    as (l & _ & _ & Hl & _ & Hboot & _).
  destruct (provision_unlinks E prefix _ _ _ Hprov) as (l2 & Hl2 & Hunlink).
  assert (l2 = l) as -> by (apply (app_inv_head (events w2)); congruence).
  split; [exact Hs |]. split.
  - exists ([banner E; EvMkdir (portable_dir E); EvMkdir (python_dir E);
             EvPlatform "system"; EvPlatform "machine"] ++ l).
    split; [| split].
    + apply since_events. cbn [events]. rewrite Hl. subst w2. cbn [events].
      rewrite Hev. now rewrite <- !app_assoc.
    + rewrite in_app_iff. now right.
    + rewrite in_app_iff. now right.
  - now exists (fs w5), st, f'.
Qed.

Lemma success_means_everything_ran_witness :
  let w' := snd (setup_portable_python Sample.windows Sample.prefix Sample.world) in
  supported Sample.windows
  /\ is_file (fs w') (activate_bat Sample.windows).
Proof.
  destruct (success_means_everything_ran Sample.windows Sample.prefix Sample.world)
    as (Hs & _ & (f & st & f' & _ & Hfs)); [vm_compute; reflexivity |].
  split; [exact Hs |]. cbn zeta. rewrite Hfs. eexists.
  rewrite lookup_insert_ne by (vm_compute; discriminate).
  apply lookup_insert_eq.
Defined.

(** ** Exit statuses of a successful run *)

(** A run that returns the success flag has started the installer and the
    dependency installation, and both have ended. *)
Lemma setup_true_ran_both (E : Env) (prefix : string) (w : World) :
  fst (setup_portable_python E prefix w) = Returned true ->
  exists f1 st1 f1' f2 st2 f2',
    run_process E (bootstrap_argv E) f1 = Some (st1, f1')
    /\ run_process E (install_argv E) f2 = Some (st2, f2')
    /\ In (EvRun (bootstrap_argv E)) (since w (snd (setup_portable_python E prefix w)))
    /\ In (EvRun (install_argv E)) (since w (snd (setup_portable_python E prefix w))).
Proof.
  pose proof (make_directories_run E (mkWorld (fs w) (events w ++ [banner E]))) as Hrun.
  destruct (make_directories _ _ _) as [[[] | e] w1] eqn:Hmk; cbn [fs events] in Hrun;
    [| rewrite (setup_directories_raised E prefix w w1 e Hmk); discriminate].
  destruct Hrun as [Hfs Hev].
  destruct (decide (lower (platform_system E) = "windows")) as [Hs | Hs].
  2:{ rewrite (setup_after_directories E prefix w w1 _ Hmk
                 (get_python_download_url_unsupported E w1 Hs)).
      discriminate. }
  rewrite (setup_after_directories E prefix w w1 _ Hmk
             (get_python_download_url_supported E w1 Hs)).
  set (w2 := mkWorld (fs w1) (events w1 ++ [EvPlatform "system"; EvPlatform "machine"])).
  assert (Hurl : exists c url,
             (if is_64bit E then python_url_amd64 else python_url_win32) = String c url)
    by (destruct (is_64bit E); eexists _, _; reflexivity).
  destruct Hurl as (c & url & ->).
  destruct (provision E prefix (String c url) w2) as [[[] | e] w5] eqn:Hprov;
    [| discriminate].
  intros Htrue.
  destruct (install_requirements_true E w5 Htrue) as (st2 & f2' & Hrun2 & ->).
  destruct (provision_returned E prefix _ _ _ Hprov)
    as (l & f1 & st1 & Hl & _ & Hboot & Hrun1 & _).
  exists f1, st1, (fs w5), (fs w5), st2, f2'.
  split; [exact Hrun1 |]. split; [exact Hrun2 |].
  erewrite since_events
    by (cbn [snd events]; rewrite Hl; subst w2; cbn [events];
        rewrite Hev, <- !app_assoc; reflexivity).
  split; rewrite !in_app_iff; cbn [In]; [tauto | intuition].
Qed.

Lemma with_status_gives (st : list string -> gmap Path Node -> Z) (E : Env)
  (argv : list string) (f f' : gmap Path Node) (s : Z) :
  run_process (with_status st E) argv f = Some (s, f') -> s = st argv f.
Proof.
  unfold with_status. cbn [run_process].
  destruct (run_process E argv f) as [[s0 f0] |]; [| discriminate].
  intros H. now injection H.
Qed.

(** C6: the exit statuses of the two child processes play no part.  Two
    environments that differ only in those statuses give the same outcome
    and the same world; and a run that returns the success flag returns it
    whatever the statuses are made to be: the installer and the dependency
    installation are both started, both end with the status they are given,
    zero or not, and the run still returns [True]. *)
Theorem exit_status_ignored (st : list string -> gmap Path Node -> Z)
  (E : Env) (prefix : string) (w : World) :
  setup_portable_python (with_status st E) prefix w
  = setup_portable_python E prefix w
  /\ (fst (setup_portable_python E prefix w) = Returned true ->
      let r := setup_portable_python (with_status st E) prefix w in
      fst r = Returned true
      /\ In (EvRun (bootstrap_argv E)) (since w (snd r))
      /\ In (EvRun (install_argv E)) (since w (snd r))
      /\ exists f1 f1' f2 f2',
           run_process (with_status st E) (bootstrap_argv E) f1
           = Some (st (bootstrap_argv E) f1, f1')
           /\ run_process (with_status st E) (install_argv E) f2
              = Some (st (install_argv E) f2, f2')).
Proof.
  split; [apply setup_status |].
  intros Htrue. cbn zeta.
  rewrite <- (setup_status st E prefix w) in Htrue.
  destruct (setup_true_ran_both (with_status st E) prefix w Htrue)
    as (f1 & st1 & f1' & f2 & st2 & f2' & Hrun1 & Hrun2 & Hin1 & Hin2).
  change (bootstrap_argv (with_status st E)) with (bootstrap_argv E) in *.
  change (install_argv (with_status st E)) with (install_argv E) in *.
  split; [exact Htrue |]. split; [exact Hin1 |]. split; [exact Hin2 |].
  exists f1, f1', f2, f2'.
  rewrite (with_status_gives st E _ _ _ _ Hrun1) in Hrun1.
  rewrite (with_status_gives st E _ _ _ _ Hrun2) in Hrun2.
  now split.
Qed.

Lemma exit_status_ignored_witness :
  let E := with_status (fun _ _ => 2%Z) Sample.windows in
  let r := setup_portable_python E Sample.prefix Sample.world in
  (forall argv f, fst <$> run_process E argv f = Some 2%Z)
  /\ fst r = Returned true
  /\ In (EvRun (bootstrap_argv E)) (since Sample.world (snd r))
  /\ In (EvRun (install_argv E)) (since Sample.world (snd r)).
Proof.
  intros E r. split.
  - intros argv f. unfold E, with_status, Sample.windows. cbn [run_process].
    unfold Sample.child.
    destruct argv as [| a1 [| a2 [| a3 [| a4 rest]]]]; reflexivity.
  - destruct (exit_status_ignored (fun _ _ => 2%Z) Sample.windows Sample.prefix
                Sample.world) as [_ H].
    destruct H as (Htrue & Hin1 & Hin2 & _); [vm_compute; reflexivity |].
    split; [exact Htrue |]. split; [exact Hin1 | exact Hin2].
Defined.

(** ** Running the script again *)

(** X17: run as part of the script, the rewrite does not pile up: the
    archive is unpacked anew before each rewrite, so when the archive holds
    a file member [python310._pth] with data [T] (and no later file member
    of that name), the rewrite starts from [T], whatever the file held
    before the run.  When the codec accepts [T], the file ends as the prefix
    once, followed by the text of [T] with a line feed for every line
    ending; when it refuses [T], the rewrite raises [UnicodeDecodeError] and
    the file holds [T] as unpacked. *)
Theorem rewrite_starts_from_the_archive (E : Env) (prefix url : string) (w : World)
  (data T : string) (earlier later : list (Path * Entry)) :
  urlopen E url = Body data ->
  zip_members E data = Some (earlier ++ (["python310._pth"], FileEntry T) :: later) ->
  (forall T', ~ In (["python310._pth"], FileEntry T') later) ->
  fst (fetch_runtime E url (portable_dir E) (python_dir E) w) = Returned tt ->
  let w1 := snd (fetch_runtime E url (portable_dir E) (python_dir E) w) in
  let r := configure_pth E prefix (python_dir E) w1 in
  match decode E T with
  | Some text =>
      fst r = Returned tt
      /\ fs (snd r) !! pth_file E = Some (File (prefix +:+ universal_newlines text))
  | None =>
      fst r = Raised (UnicodeDecodeError (pth_file E))
      /\ fs (snd r) !! pth_file E = Some (File T)
  end.
Proof.
  intros Hurl Hm Hlater.
  destruct (fetch_runtime E url (portable_dir E) (python_dir E) w) as [o w1] eqn:Hr.
  cbn [fst snd]. intros ->.
  destruct (fetch_runtime_returned E url w w1 Hr)
    as (data' & members & f2 & Hurl' & Hm' & Hseq & ->).
  rewrite Hurl in Hurl'. injection Hurl' as <-.
  rewrite Hm in Hm'. injection Hm' as <-.
  apply fs_extract_latest in Hseq; [| exact Hlater].
  assert (Hpth : delete (python_zip E) f2 !! (python_dir E // "python310._pth")
                 = Some (File T)).
  { rewrite lookup_delete_ne; [exact Hseq |]. apply member_not_python_zip. }
  cbn zeta. destruct (decode E T) as [text |] eqn:D.
  - match goal with
    | |- context [configure_pth E prefix (python_dir E) ?w0] =>
        rewrite (configure_pth_prepends E prefix (python_dir E) w0 T text Hpth D)
    end.
    split; [reflexivity | apply lookup_insert_eq].
  - match goal with
    | |- context [configure_pth E prefix (python_dir E) ?w0] =>
        rewrite (configure_pth_undecodable E prefix (python_dir E) w0 T Hpth D)
    end.
    split; [reflexivity | exact Hpth].
Qed.

Lemma rewrite_starts_from_the_archive_witness :
  let w1 := snd (fetch_runtime Sample.windows python_url_amd64
                   (portable_dir Sample.windows) (python_dir Sample.windows)
                   Faults.downloaded) in
  Sample.unzip "PK-amd64"
  = Some [(["python.exe"], FileEntry "MZ");
          (["python310._pth"],
           FileEntry ("python310.zip" +:+ Sample.crlf +:+ "." +:+ Sample.crlf));
          (["Lib"], DirEntry);
          (["Lib"; "site.py"], FileEntry "import sys")]
  /\ fs (snd (configure_pth Sample.windows Sample.prefix (python_dir Sample.windows) w1))
       !! pth_file Sample.windows
     = Some (File (Sample.prefix +:+ "python310.zip" +:+ nl +:+ "." +:+ nl)).
Proof.
  split; [reflexivity |].
  pose proof (rewrite_starts_from_the_archive Sample.windows Sample.prefix
                python_url_amd64 Faults.downloaded "PK-amd64"
                ("python310.zip" +:+ Sample.crlf +:+ "." +:+ Sample.crlf)
                [(["python.exe"], FileEntry "MZ")]
                [(["Lib"], DirEntry); (["Lib"; "site.py"], FileEntry "import sys")])
    as H.
  assert (D : decode Sample.windows
                ("python310.zip" +:+ Sample.crlf +:+ "." +:+ Sample.crlf)
              = Some ("python310.zip" +:+ Sample.crlf +:+ "." +:+ Sample.crlf))
    by reflexivity.
  rewrite D in H. apply H.
  - reflexivity.
  - reflexivity.
  - intros T' [Heq | [Heq | []]]; discriminate Heq.
  - vm_compute. reflexivity.
Defined.

(** ** When the network fails *)

(** X18: on a supported platform whose archive cannot be reached, the run
    raises [URLError] out of [setup_portable_python]: the directories have
    been made, nothing has been saved, and no later step is tried. *)
Theorem setup_archive_unreachable (E : Env) (prefix : string) (w : World) :
  supported E ->
  directories_can_be_made E (fs w) ->
  urlopen E (if is_64bit E then python_url_amd64 else python_url_win32) = Unreachable ->
  let url := if is_64bit E then python_url_amd64 else python_url_win32 in
  setup_portable_python E prefix w
  = (Raised (URLError url),
     mkWorld (<[python_dir E := Dir]> (<[portable_dir E := Dir]> (fs w)))
       (events w ++
        [banner E; EvMkdir (portable_dir E); EvMkdir (python_dir E);
         EvPlatform "system"; EvPlatform "machine";
         EvPrint ("Downloading " +:+ url +:+ "...");
         EvUrlretrieve url (python_zip E)])).
Proof.
  intros Hs Hcan Hnet url.
  pose proof (make_directories_ok E (mkWorld (fs w) (events w ++ [banner E])) Hcan)
    as Hmk.
  rewrite (setup_after_directories E prefix w _ _ Hmk
             (get_python_download_url_supported E _ Hs)).
  fold url in Hnet |- *.
  assert (Hne : exists c s, url = String c s)
    by (subst url; destruct (is_64bit E); eexists _, _; reflexivity).
  destruct Hne as (c & s & Hcs). rewrite Hcs. rewrite <- Hcs.
  unfold provision, fetch_runtime. fold (python_zip E).
  unfold bind at 1 2. rewrite download_file_run. cbn zeta. rewrite Hnet.
  cbn [fs events]. now rewrite <- !app_assoc.
Qed.

Lemma setup_archive_unreachable_witness :
  fst (setup_portable_python
         (mkEnv "Windows" "x86" Sample.root "\" Sample.net Sample.unzip Sample.child
                Sample.codec)
         Sample.prefix Sample.world)
  = Raised (URLError python_url_win32).
Proof.
  rewrite setup_archive_unreachable.
  - reflexivity.
  - reflexivity.
  - split; [left; reflexivity | right; reflexivity].
  - reflexivity.
Defined.
